(** * Retail Analytics Copilot: the query-resolution state machine

    A shallow embedding of [agent/graph_hybrid.py], [agent/lang_graph.py]
    and [agent/rag/retrieval.py], and the properties of the routing
    decision, the planner, the query synthesizer, the execute / validate /
    repair loop and the answer synthesizer.

    Modelling conventions.
    - Python [str] is a Rocq [string]; case mapping and the whitespace
      class are Python's restricted to ASCII text.
    - A Python exception is a value [Raise e] of the [result] type; a
      [try ... except Exception] block is a match on it.
    - Python [float] is [pyfloat]: NaN, the two infinities, or the exact
      rational a finite double denotes.  The last binary re-rounding of
      [round(x, n)] is not represented.
    - A [dict] with a fixed schema is a record; a result row (a [dict]
      keyed by column name) is an insertion-ordered association list.
    - The graph runtime merges the partial update a node returns into
      the state key by key, for the keys that are fields of
      [AgentState]; a key that is no field is dropped.  The conditional
      edges read the merged state. *)

From Stdlib Require Import String Ascii List ZArith QArith Qround Lia Bool Arith.
From Stdlib Require Import Permutation Sorted.
Import ListNotations.
Local Open Scope string_scope.
Local Open Scope Z_scope.

Set Implicit Arguments.

(* ------------------------------------------------------------------ *)
(** ** Exceptions and the result monad *)

Inductive exn : Type :=
| ValueError
| TypeError
| IndexError
| OverflowError
| RuntimeError
| OtherError.

Inductive result (A : Type) : Type :=
| Ok (a : A)
| Raise (e : exn).

Arguments Ok {A} a.
Arguments Raise {A} e.

Definition bind {A B : Type} (m : result A) (f : A -> result B) : result B :=
  match m with
  | Ok a => f a
  | Raise e => Raise e
  end.

Notation "x <- m ;; k" := (bind m (fun x => k))
  (at level 61, m at next level, right associativity).

Definition returns {A : Type} (m : result A) : Prop := exists a, m = Ok a.

Definition raises {A : Type} (m : result A) : Prop := exists e, m = Raise e.

(* ------------------------------------------------------------------ *)
(** ** Python string operations *)

Module PyStr.

Definition dq : string := String (ascii_of_nat 34) "".
Definition nl : string := String (ascii_of_nat 10) "".

Definition code (c : ascii) : nat := nat_of_ascii c.

Definition between (lo hi : nat) (c : ascii) : bool :=
  (Nat.leb lo (code c) && Nat.leb (code c) hi)%bool.

Definition is_upper (c : ascii) : bool := between 65 90 c.
Definition is_lower (c : ascii) : bool := between 97 122 c.
Definition is_digit (c : ascii) : bool := between 48 57 c.

(** [str.isspace] on ASCII: TAB..CR, FS..US and SPACE. *)
Definition is_space (c : ascii) : bool :=
  (between 9 13 c || between 28 32 c)%bool.

(** The class [\w] on ASCII. *)
Definition is_word (c : ascii) : bool :=
  (is_upper c || is_lower c || is_digit c || Nat.eqb (code c) 95)%bool.

Definition lower_char (c : ascii) : ascii :=
  if is_upper c then ascii_of_nat (code c + 32) else c.

Fixpoint lower (s : string) : string :=
  match s with
  | EmptyString => EmptyString
  | String c s' => String (lower_char c) (lower s')
  end.

Fixpoint lstrip_by (p : ascii -> bool) (s : string) : string :=
  match s with
  | EmptyString => EmptyString
  | String c s' => if p c then lstrip_by p s' else s
  end.

Fixpoint rstrip_by (p : ascii -> bool) (s : string) : string :=
  match s with
  | EmptyString => EmptyString
  | String c s' =>
      match rstrip_by p s' with
      | EmptyString => if p c then EmptyString else String c EmptyString
      | t => String c t
      end
  end.

Definition strip_by (p : ascii -> bool) (s : string) : string :=
  rstrip_by p (lstrip_by p s).

(** [s.strip()] *)
Definition strip (s : string) : string := strip_by is_space s.

Fixpoint mem_char (c : ascii) (cs : string) : bool :=
  match cs with
  | EmptyString => false
  | String d cs' => (Ascii.eqb c d || mem_char c cs')%bool
  end.

(** [s.strip(chars)] *)
Definition strip_chars (chars s : string) : string :=
  strip_by (fun c => mem_char c chars) s.

(** [s.startswith(p)] *)
Definition startswith (s p : string) : bool := String.prefix p s.

Fixpoint drop (n : nat) (s : string) : string :=
  match n, s with
  | O, _ => s
  | S n', String _ s' => drop n' s'
  | S _, EmptyString => EmptyString
  end.

Fixpoint take (n : nat) (s : string) : string :=
  match n, s with
  | O, _ => EmptyString
  | S n', String c s' => String c (take n' s')
  | S _, EmptyString => EmptyString
  end.

(** [s.endswith(p)] *)
Definition endswith (s p : string) : bool :=
  (Nat.leb (String.length p) (String.length s)
   && String.eqb (drop (String.length s - String.length p) s) p)%bool.

(** [sub in s] *)
Fixpoint contains (sub s : string) : bool :=
  (String.prefix sub s
   || match s with
      | EmptyString => false
      | String _ s' => contains sub s'
      end)%bool.

(** [s.replace(old, new)] for a non-empty [old]: the occurrences are
    replaced from left to right and do not overlap. *)
Fixpoint replace_aux (fuel : nat) (old new s : string) : string :=
  match fuel with
  | O => s
  | S fuel' =>
      match s with
      | EmptyString => EmptyString
      | String c s' =>
          if String.prefix old s
          then new ++ replace_aux fuel' old new (drop (String.length old) s)
          else String c (replace_aux fuel' old new s')
      end
  end.

Definition replace (old new s : string) : string :=
  replace_aux (String.length s) old new s.

(** [any(w in s for w in words)] *)
Definition any_in (words : list string) (s : string) : bool :=
  existsb (fun w => contains w s) words.

(** [x in {...}] for strings *)
Definition mem (x : string) (xs : list string) : bool :=
  existsb (String.eqb x) xs.

(** Truthiness of a [str]. *)
Definition truthy (s : string) : bool :=
  match s with
  | EmptyString => false
  | _ => true
  end.

(** [sep.join(parts)] *)
Definition join (sep : string) (parts : list string) : string :=
  String.concat sep parts.

(** [s.splitlines()] on ASCII line boundaries LF, VT, FF, CR, FS, GS, RS;
    CR LF counts as one boundary. *)
Definition is_linebreak (c : ascii) : bool :=
  (between 10 13 c || between 28 30 c)%bool.

Fixpoint splitlines_aux (cur : string) (s : string) : list string :=
  match s with
  | EmptyString =>
      match cur with
      | EmptyString => []
      | _ => [cur]
      end
  | String c s' =>
      if is_linebreak c then
        match s' with
        | String d s'' =>
            if (Nat.eqb (code c) 13 && Nat.eqb (code d) 10)%bool
            then cur :: splitlines_aux EmptyString s''
            else cur :: splitlines_aux EmptyString s'
        | EmptyString => [cur]
        end
      else splitlines_aux (cur ++ String c EmptyString) s'
  end.

Definition splitlines (s : string) : list string :=
  splitlines_aux EmptyString s.

(** Decimal text of a natural number, as [str(n)] prints it. *)
Fixpoint digits_aux (fuel n : nat) (acc : string) : string :=
  match fuel with
  | O => acc
  | S fuel' =>
      let acc' := String (ascii_of_nat (48 + Nat.modulo n 10)) acc in
      if Nat.ltb n 10 then acc' else digits_aux fuel' (Nat.div n 10) acc'
  end.

Definition str_of_nat (n : nat) : string := digits_aux (S n) n EmptyString.

(** Value of a string of decimal digits, as [int(s)] reads [\d+]. *)
Fixpoint nat_of_digits_aux (acc : nat) (s : string) : nat :=
  match s with
  | EmptyString => acc
  | String c s' => nat_of_digits_aux (10 * acc + (code c - 48)) s'
  end.

Definition nat_of_digits (s : string) : nat := nat_of_digits_aux 0 s.

End PyStr.

Import PyStr.

(* ------------------------------------------------------------------ *)
(** ** A backtracking matcher for the regular expressions of the source

    Quantifiers range over character classes only, which is all the
    patterns of the program need; they are greedy and give characters
    back in the order Python's [re] does. *)

Module Re.

Inductive regex : Type :=
| Cls (p : ascii -> bool)          (* one character of a class *)
| Lit (s : string)                 (* literal text *)
| LitI (s : string)                (* literal text under IGNORECASE *)
| Seq (r1 r2 : regex)
| Alt (r1 r2 : regex)              (* r1|r2, r1 tried first *)
| Star (p : ascii -> bool)         (* p*  *)
| Plus (p : ascii -> bool)         (* p+  *)
| Rep (n : nat) (p : ascii -> bool)  (* p{n} *)
| Opt (r : regex)                  (* r?  *)
| Group (i : nat) (r : regex)      (* capturing group number i *)
| WordB                            (* \b  *)
| Eos.                             (* end of the text *)

Record mstate : Type := MState {
  prev : option ascii;             (* the character before the position *)
  rest : string;                   (* the text from the position on *)
  caps : list (nat * string)       (* groups closed so far, newest first *)
}.

Definition last_char (dflt : option ascii) (s : string) : option ascii :=
  match list_ascii_of_string s with
  | [] => dflt
  | c :: cs => Some (List.last cs c)
  end.

Section Matcher.

Variable A : Type.

Fixpoint star (p : ascii -> bool) (k : mstate -> option A)
  (pv : option ascii) (s : string) (cs : list (nat * string)) : option A :=
  match s with
  | EmptyString => k (MState pv s cs)
  | String c s' =>
      if p c then
        match star p k (Some c) s' cs with
        | Some x => Some x
        | None => k (MState pv s cs)
        end
      else k (MState pv s cs)
  end.

Definition one (p : ascii -> bool) (k : mstate -> option A) (st : mstate)
  : option A :=
  match rest st with
  | EmptyString => None
  | String c s' => if p c then k (MState (Some c) s' (caps st)) else None
  end.

Fixpoint rep (n : nat) (p : ascii -> bool) (k : mstate -> option A)
  (st : mstate) : option A :=
  match n with
  | O => k st
  | S n' => one p (rep n' p k) st
  end.

Definition is_word_opt (c : option ascii) : bool :=
  match c with
  | Some a => is_word a
  | None => false
  end.

Definition next_char (s : string) : option ascii :=
  match s with
  | EmptyString => None
  | String c _ => Some c
  end.

Fixpoint m (r : regex) (k : mstate -> option A) (st : mstate) : option A :=
  match r with
  | Cls p => one p k st
  | Lit s =>
      if String.prefix s (rest st)
      then k (MState (last_char (prev st) s)
                     (drop (String.length s) (rest st)) (caps st))
      else None
  | LitI s =>
      let n := String.length s in
      if (String.eqb (lower (take n (rest st))) (lower s)
          && Nat.leb n (String.length (rest st)))%bool
      then k (MState (last_char (prev st) (take n (rest st)))
                     (drop n (rest st)) (caps st))
      else None
  | Seq r1 r2 => m r1 (m r2 k) st
  | Alt r1 r2 =>
      match m r1 k st with
      | Some x => Some x
      | None => m r2 k st
      end
  | Star p => star p k (prev st) (rest st) (caps st)
  | Plus p => one p (fun st' => star p k (prev st') (rest st') (caps st')) st
  | Rep n p => rep n p k st
  | Opt r' =>
      match m r' k st with
      | Some x => Some x
      | None => k st
      end
  | Group i r' =>
      m r'
        (fun st' =>
           let len := (String.length (rest st) - String.length (rest st'))%nat in
           k (MState (prev st') (rest st')
                     ((i, take len (rest st)) :: caps st')))
        st
  | WordB =>
      if xorb (is_word_opt (prev st)) (is_word_opt (next_char (rest st)))
      then k st else None
  | Eos =>
      match rest st with
      | EmptyString => k st
      | _ => None
      end
  end.

End Matcher.

(** [pattern.match] at a given position. *)
Definition match_at (r : regex) (pv : option ascii) (s : string)
  : option mstate :=
  m r (fun st => Some st) (MState pv s []).

(** [pattern.search(text)]: the leftmost match. *)
Fixpoint search_from (r : regex) (pv : option ascii) (s : string)
  : option mstate :=
  match match_at r pv s with
  | Some st => Some st
  | None =>
      match s with
      | EmptyString => None
      | String c s' => search_from r (Some c) s'
      end
  end.

Definition search (r : regex) (s : string) : option mstate :=
  search_from r None s.

(** [match.group(i)]; [None] when the group took no part. *)
Fixpoint lookup (i : nat) (cs : list (nat * string)) : option string :=
  match cs with
  | [] => None
  | (j, s) :: cs' => if Nat.eqb i j then Some s else lookup i cs'
  end.

Definition group (i : nat) (st : mstate) : option string := lookup i (caps st).

(** [pattern.finditer(text)]: the successive matches, none overlapping.
    After a match that consumed nothing the scan moves on by one
    character. *)
Fixpoint finditer_aux (fuel : nat) (r : regex) (pv : option ascii)
  (s : string) : list mstate :=
  match fuel with
  | O => []
  | S fuel' =>
      let advance :=
        match s with
        | EmptyString => []
        | String c s' => finditer_aux fuel' r (Some c) s'
        end in
      match match_at r pv s with
      | Some st =>
          if Nat.ltb (String.length (rest st)) (String.length s)
          then st :: finditer_aux fuel' r (prev st) (rest st)
          else st :: advance
      | None => advance
      end
  end.

Definition finditer (r : regex) (s : string) : list mstate :=
  finditer_aux (S (String.length s)) r None s.

(** [re.sub(r"\s+", " ", s)]: every maximal run of whitespace becomes
    one space. *)
Fixpoint sub_spaces_aux (in_run : bool) (s : string) : string :=
  match s with
  | EmptyString => EmptyString
  | String c s' =>
      if is_space c
      then if in_run then sub_spaces_aux true s'
           else String " "%char (sub_spaces_aux true s')
      else String c (sub_spaces_aux false s')
  end.

Definition sub_spaces (s : string) : string := sub_spaces_aux false s.

End Re.

(* ------------------------------------------------------------------ *)
(** ** Python numbers and result cells *)

Inductive pyfloat : Type :=
| FNan
| FInf (negative : bool)
| FFin (q : Q).

Definition is_finite (f : pyfloat) : bool :=
  match f with
  | FFin _ => true
  | _ => false
  end.

(** [x == 0] on floats. *)
Definition is_zero (f : pyfloat) : bool :=
  match f with
  | FFin q => Qeq_bool q 0
  | _ => false
  end.

(** Nearest integer, ties to the even one. *)
Definition round_half_even (q : Q) : Z :=
  let n := Qnum q in
  let d := Zpos (Qden q) in
  let fl := n / d in
  match (2 * (n mod d)) ?= d with
  | Lt => fl
  | Gt => fl + 1
  | Eq => if Z.even fl then fl else fl + 1
  end.

(** [round(x, ndigits)] on a float. *)
Definition py_round (f : pyfloat) (ndigits : Z) : pyfloat :=
  match f with
  | FFin q =>
      if 0 <=? ndigits then
        let s := 10 ^ ndigits in
        FFin (Qred (Qmake (round_half_even (q * inject_Z s)) (Z.to_pos s)))
      else
        let s := 10 ^ (- ndigits) in
        FFin (inject_Z (round_half_even (q / inject_Z s) * s))
  | _ => f
  end.

(** A cell of a result row, with the types [sqlite3] hands back. *)
Inductive value : Type :=
| VNone
| VInt (z : Z)
| VFloat (f : pyfloat)
| VStr (s : string)
| VBytes (s : string).

(** A [dict] keyed by strings, in insertion order, keys distinct. *)
Definition row : Type := list (string * value).

(** [d[k] = v] *)
Fixpoint dict_set (k : string) (v : value) (d : row) : row :=
  match d with
  | [] => [(k, v)]
  | (k', v') :: d' =>
      if String.eqb k k' then (k, v) :: d' else (k', v') :: dict_set k v d'
  end.

Definition keys (d : row) : list string := map fst d.
Definition values (d : row) : list value := map snd d.

(* ------------------------------------------------------------------ *)
(** ** Data model *)

Record Chunk : Type := MkChunk {
  chunk_id : option string;
  source : option string;
  content : option string;
  score : pyfloat
}.

(** [chunk.get("content", "")] *)
Definition get_content (c : Chunk) : string :=
  match content c with
  | Some s => s
  | None => ""
  end.

Record DateRange : Type := MkDateRange {
  dr_start : string;
  dr_end : string
}.

(** The constraint set: a sparse [dict] with the keys [date_range],
    [category] and [kpi]; [None] is an absent key. *)
Record Constraints : Type := MkConstraints {
  date_range : option DateRange;
  category : option string;
  kpi : option string
}.

Record SqlResult : Type := MkSqlResult {
  success : bool;
  error : option string;
  columns : list string;
  rows : list row
}.

Record AgentArtifacts : Type := MkArtifacts {
  tables : list string;
  table_schemas : list (string * list row)
}.

(** The lexical index of [Retriever]: the chunk texts and their
    metadata, whether [load_corpus] has run, and the similarity of a
    query against every chunk (the TF-IDF vectorizer and the linear
    kernel, which are library code). *)
Record ChunkMeta : Type := MkChunkMeta {
  meta_chunk_id : string;
  meta_source : string;
  index_in_file : nat
}.

Record Retriever : Type := MkRetriever {
  chunks : list string;
  chunk_meta : list ChunkMeta;
  loaded : bool;
  similarities : string -> list pyfloat
}.

(** [HybridAgent].  The predictor either raises or returns a prediction
    whose [route] is a string or [None]; the store answers a query given
    the queries it has answered before; [year_offset] is the constant
    [_compute_year_offset] found when the agent was built. *)
Record Agent : Type := MkAgent {
  router_module : string -> result (option string);
  retriever : Retriever;
  sqlite_execute : list string -> string -> SqlResult;
  max_repairs : Z;
  artifacts : AgentArtifacts;
  year_offset : Z
}.

Definition KNOWN_CATEGORIES : list string :=
  [ "Beverages"; "Condiments"; "Confections"; "Dairy Products";
    "Grains/Cereals"; "Meat/Poultry"; "Produce"; "Seafood" ].

(* ------------------------------------------------------------------ *)
(** ** Module-level helpers of [graph_hybrid.py] *)

Definition normalize_category (value : option string) : option string :=
  match value with
  | None => None
  | Some v =>
      if negb (truthy v) then None
      else
        match find (fun cat => contains (lower cat) (lower v)) KNOWN_CATEGORIES with
        | Some cat => Some cat
        | None => Some v
        end
  end.

Definition en_dash : string :=
  String (ascii_of_nat 226) (String (ascii_of_nat 128)
    (String (ascii_of_nat 147) "")).

(** [\d{4}-\d{2}-\d{2}] *)
Definition date_re : Re.regex :=
  Re.Seq (Re.Rep 4 is_digit)
    (Re.Seq (Re.Lit "-")
       (Re.Seq (Re.Rep 2 is_digit)
          (Re.Seq (Re.Lit "-") (Re.Rep 2 is_digit)))).

(** [(\d{4}-\d{2}-\d{2})\s*(?:to|–|-)\s*(\d{4}-\d{2}-\d{2})] *)
Definition range_pattern : Re.regex :=
  Re.Seq (Re.Group 1 date_re)
    (Re.Seq (Re.Star is_space)
       (Re.Seq (Re.Alt (Re.Lit "to") (Re.Alt (Re.Lit en_dash) (Re.Lit "-")))
          (Re.Seq (Re.Star is_space) (Re.Group 2 date_re)))).

Definition group_or_empty (i : nat) (st : Re.mstate) : string :=
  match Re.group i st with
  | Some s => s
  | None => ""
  end.

Definition extract_first_date_range (text : string) : option (string * string) :=
  if negb (truthy text) then None
  else
    match Re.search range_pattern text with
    | Some st => Some (group_or_empty 1 st, group_or_empty 2 st)
    | None =>
        if contains "summer beverages 1997" (lower text)
        then Some ("1997-06-01", "1997-06-30")
        else if contains "winter classics 1997" (lower text)
        then Some ("1997-12-01", "1997-12-31")
        else None
    end.

Fixpoint first_some {A B : Type} (f : A -> option B) (l : list A) : option B :=
  match l with
  | [] => None
  | x :: l' =>
      match f x with
      | Some y => Some y
      | None => first_some f l'
      end
  end.

Definition extract_date_range (question : string) (chunks : list Chunk)
  : option (string * string) :=
  let check_targets := question :: map get_content chunks in
  first_some extract_first_date_range check_targets.

Definition extract_category (question : string) (chunks : list Chunk)
  : option string :=
  let q := lower question in
  match find (fun cat => contains (lower cat) q) KNOWN_CATEGORIES with
  | Some cat => Some cat
  | None =>
      first_some
        (fun chunk =>
           find (fun cat => contains (lower cat) (lower (get_content chunk)))
                KNOWN_CATEGORIES)
        chunks
  end.

(** [top\s+(\d+)] *)
Definition top_n_pattern : Re.regex :=
  Re.Seq (Re.Lit "top") (Re.Seq (Re.Plus is_space) (Re.Group 1 (Re.Plus is_digit))).

Definition parse_top_n (question : string) : option nat :=
  match Re.search top_n_pattern (lower question) with
  | Some st => Some (nat_of_digits (group_or_empty 1 st))
  | None => None
  end.

Definition sanitize_literal (value : string) : string :=
  replace "'" "''" value.

Inductive FormatHint : Type :=
| HInt
| HFloat
| HList (inner : FormatHint)
| HEmpty                            (* the empty dict of a list hint without brackets *)
| HObject (fields : list (string * string))
| HStr.

Fixpoint split_char_aux (sep : ascii) (cur s : string) : list string :=
  match s with
  | EmptyString => [cur]
  | String c s' =>
      if Ascii.eqb c sep then cur :: split_char_aux sep EmptyString s'
      else split_char_aux sep (cur ++ String c EmptyString) s'
  end.

(** [s.split(sep)] for a one-character separator *)
Definition split_char (sep : ascii) (s : string) : list string :=
  split_char_aux sep EmptyString s.

(** [s.split(sep, 1)] when [sep in s] *)
Fixpoint split_once (sep : ascii) (s : string) : option (string * string) :=
  match s with
  | EmptyString => None
  | String c s' =>
      if Ascii.eqb c sep then Some (EmptyString, s')
      else
        match split_once sep s' with
        | Some (a, b) => Some (String c a, b)
        | None => None
        end
  end.

(** [s[1:-1]] *)
Definition slice_1_m1 (s : string) : string :=
  take (String.length s - 2) (drop 1 s).

Definition parse_fields (body : string) : list (string * string) :=
  flat_map
    (fun piece =>
       match split_once ":"%char piece with
       | Some (key, typ) => [(strip_chars "{} " (strip key), strip typ)]
       | None => []
       end)
    (split_char ","%char body).

(** The recursion of [parse_format_hint] is on the text between the
    brackets of a list hint, which is shorter than the hint; [fuel]
    bounds its depth. *)
Fixpoint parse_format_hint_aux (fuel : nat) (format_hint : string) : FormatHint :=
  let hint := strip format_hint in
  if String.eqb hint "int" then HInt
  else if startswith hint "float" then HFloat
  else if startswith hint "list" then
    let inner := strip (drop 4 hint) in
    HList
      (if (startswith inner "[" && endswith inner "]")%bool then
         match fuel with
         | S fuel' => parse_format_hint_aux fuel' (slice_1_m1 inner)
         | O => HEmpty
         end
       else HEmpty)
  else if (startswith hint "{" && endswith hint "}")%bool then
    HObject (parse_fields (slice_1_m1 hint))
  else HStr.

Definition parse_format_hint (format_hint : string) : FormatHint :=
  parse_format_hint_aux (String.length format_hint) format_hint.

(** [(\d+)\s*days], IGNORECASE *)
Definition days_pattern : Re.regex :=
  Re.Seq (Re.Group 1 (Re.Plus is_digit))
    (Re.Seq (Re.Star is_space) (Re.LitI "days")).

Definition policy_hints (question : string) : list string :=
  let question_lower := lower question in
  map lower
    (filter (fun cat => contains (lower cat) question_lower)
       (KNOWN_CATEGORIES ++ ["beverages"; "condiments"; "policy"; "return"])).

Definition policy_candidates (hints : list string) (content : string)
  : list string :=
  let candidates :=
    match hints with
    | [] => []
    | _ => filter (fun line => existsb (fun hint => contains hint (lower line)) hints)
                  (splitlines content)
    end in
  match candidates with
  | [] => [content]
  | _ => candidates
  end.

Definition extract_policy_number (question : string) (chunks : list Chunk)
  : option nat :=
  let hints := policy_hints question in
  first_some
    (fun chunk =>
       first_some
         (fun text =>
            match Re.search days_pattern text with
            | Some st => Some (nat_of_digits (group_or_empty 1 st))
            | None => None
            end)
         (policy_candidates hints (get_content chunk)))
    chunks.

Definition word_or_space (c : ascii) : bool := (is_word c || is_space c)%bool.

Definition table_clause (kw : string) (i : nat) : Re.regex :=
  Re.Seq Re.WordB
    (Re.Seq (Re.LitI kw)
       (Re.Seq (Re.Plus is_space)
          (Re.Seq (Re.Opt (Re.Lit dq))
             (Re.Seq (Re.Group i (Re.Plus word_or_space)) (Re.Opt (Re.Lit dq)))))).

(** [\bFROM\s+"?([\w\s]+)"?|\bJOIN\s+"?([\w\s]+)"?], IGNORECASE *)
Definition table_pattern : Re.regex :=
  Re.Alt (table_clause "FROM" 1) (table_clause "JOIN" 2).

(** [pattern.findall] of a pattern with two groups. *)
Definition findall2 (r : Re.regex) (s : string) : list (string * string) :=
  map (fun st => (group_or_empty 1 st, group_or_empty 2 st)) (Re.finditer r s).

(** [tables.add(x)] on a [set], kept as a list without duplicates. *)
Fixpoint set_add (x : string) (l : list string) : list string :=
  match l with
  | [] => [x]
  | y :: l' => if String.eqb x y then l else y :: set_add x l'
  end.

Fixpoint insert_sorted (x : string) (l : list string) : list string :=
  match l with
  | [] => [x]
  | y :: l' => if String.leb x y then x :: l else y :: insert_sorted x l'
  end.

(** [sorted(xs)] on strings *)
Definition sorted (l : list string) : list string :=
  fold_right insert_sorted [] l.

Definition table_candidates (sql : string) : list string :=
  flat_map
    (fun '(from_match, join_match) =>
       let candidate := if truthy from_match then from_match else join_match in
       if negb (truthy candidate) then []
       else
         let candidate := strip_chars dq (strip candidate) in
         if truthy candidate then [candidate] else [])
    (findall2 table_pattern sql).

Definition extract_tables_from_sql (sql : string) : list string :=
  if negb (truthy sql) then []
  else sorted (fold_left (fun tables c => set_add c tables) (table_candidates sql) []).

(* ------------------------------------------------------------------ *)
(** ** [HybridAgent]: routing and planning *)

Definition sql_signals : list string :=
  ["top"; "revenue"; "aov"; "average order value"; "margin"; "quantity"; "customer"].

Definition doc_signals : list string :=
  ["policy"; "return window"; "returns policy"; "docs"; "definition"].

Definition _fallback_route (question : string) : string :=
  let q := lower question in
  if (any_in doc_signals q && negb (any_in sql_signals q))%bool then "rag"
  else if any_in sql_signals q then "hybrid"
  else "rag".

(** [pred.route or fallback] *)
Definition route_or (r : option string) (fallback : string) : string :=
  match r with
  | Some s => if truthy s then s else fallback
  | None => fallback
  end.

Definition route (a : Agent) (question : string) : string :=
  let fallback := _fallback_route question in
  match router_module a question with
  | Ok r =>
      let route := lower (strip (route_or r fallback)) in
      if negb (mem route ["rag"; "sql"; "hybrid"]) then fallback
      else if (negb (String.eqb route fallback)
               && mem fallback ["sql"; "hybrid"]
               && String.eqb route "rag")%bool then fallback
      else route
  | Raise _ => fallback
  end.

Definition plan_kpi (q : string) : option string :=
  if (contains "aov" q || contains "average order value" q)%bool then Some "aov"
  else if (contains "gross margin" q || contains "margin" q)%bool then Some "gross_margin"
  else if contains "revenue" q then Some "revenue"
  else None.

Definition plan (question : string) (chunks : list Chunk) : Constraints :=
  let date_range := extract_date_range question chunks in
  let category := extract_category question chunks in
  let normalized_category := normalize_category category in
  let q := lower question in
  let kpi := plan_kpi q in
  {| date_range :=
       match date_range with
       | Some (s, e) => Some (MkDateRange s e)
       | None => None
       end;
     category :=
       match normalized_category with
       | Some c => if truthy c then Some c else None
       | None => None
       end;
     kpi := kpi |}.

(* ------------------------------------------------------------------ *)
(** ** Calendar dates: [datetime.strptime], [replace], [strftime] *)

Record datetime : Type := MkDate {
  year : Z;
  month : Z;
  day : Z
}.

Definition is_leap (y : Z) : bool :=
  ((y mod 4 =? 0) && negb (y mod 100 =? 0) || (y mod 400 =? 0))%bool.

Definition days_in_month (y m : Z) : Z :=
  if m =? 2 then (if is_leap y then 29 else 28)
  else if ((m =? 4) || (m =? 6) || (m =? 9) || (m =? 11))%bool then 30
  else 31.

(** The [datetime] constructor raises [ValueError] outside the calendar. *)
Definition make_date (y m d : Z) : result datetime :=
  if ((1 <=? y) && (y <=? 9999) && (1 <=? m) && (m <=? 12)
      && (1 <=? d) && (d <=? days_in_month y m))%bool
  then Ok (MkDate y m d)
  else Raise ValueError.

Definition digit_range (lo hi : nat) (c : ascii) : bool :=
  between (48 + lo) (48 + hi) c.

(** The expression [strptime] builds for the format [%Y-%m-%d]:
    [(\d\d\d\d)-(1[0-2]|0[1-9]|[1-9])-(3[01]|[12]\d|0[1-9]|[1-9]| [1-9])] *)
Definition ymd_pattern : Re.regex :=
  Re.Seq (Re.Group 1 (Re.Rep 4 is_digit))
    (Re.Seq (Re.Lit "-")
       (Re.Seq
          (Re.Group 2
             (Re.Alt (Re.Seq (Re.Lit "1") (Re.Cls (digit_range 0 2)))
                (Re.Alt (Re.Seq (Re.Lit "0") (Re.Cls (digit_range 1 9)))
                   (Re.Cls (digit_range 1 9)))))
          (Re.Seq (Re.Lit "-")
             (Re.Group 3
                (Re.Alt (Re.Seq (Re.Lit "3") (Re.Cls (digit_range 0 1)))
                   (Re.Alt (Re.Seq (Re.Cls (digit_range 1 2)) (Re.Cls is_digit))
                      (Re.Alt (Re.Seq (Re.Lit "0") (Re.Cls (digit_range 1 9)))
                         (Re.Alt (Re.Cls (digit_range 1 9))
                            (Re.Seq (Re.Lit " ") (Re.Cls (digit_range 1 9))))))))))).

Definition int_group (i : nat) (st : Re.mstate) : Z :=
  Z.of_nat (nat_of_digits (strip (group_or_empty i st))).

(** [datetime.strptime(s, "%Y-%m-%d")]: the text must match from its
    start, nothing may remain after the match, and the fields must name
    a day of the calendar. *)
Definition strptime_ymd (s : string) : result datetime :=
  match Re.match_at ymd_pattern None s with
  | None => Raise ValueError
  | Some st =>
      if truthy (Re.rest st) then Raise ValueError
      else make_date (int_group 1 st) (int_group 2 st) (int_group 3 st)
  end.

Fixpoint zeros (n : nat) : string :=
  match n with
  | O => EmptyString
  | S n' => String "0"%char (zeros n')
  end.

Definition zero_pad (width : nat) (z : Z) : string :=
  let s := str_of_nat (Z.to_nat z) in
  zeros (width - String.length s) ++ s.

(** [dt.strftime("%Y-%m-%d")]; the year is printed the way the C
    library of the platform prints it, here without padding. *)
Definition strftime_ymd (dt : datetime) : string :=
  zero_pad 1 (year dt) ++ "-" ++ zero_pad 2 (month dt) ++ "-" ++ zero_pad 2 (day dt).

(** [dt.replace(year=y)] *)
Definition replace_year (dt : datetime) (y : Z) : result datetime :=
  make_date y (month dt) (day dt).

(* ------------------------------------------------------------------ *)
(** ** [HybridAgent]: query synthesis *)

Definition _shift_date (a : Agent) (date_str : string) : result string :=
  if year_offset a =? 0 then Ok date_str
  else
    dt <- strptime_ymd date_str ;;
    dt' <- replace_year dt (year dt + year_offset a) ;;
    Ok (strftime_ymd dt').

Definition _get_sql_date_range (a : Agent) (constraints : Constraints)
  : result (option DateRange) :=
  match date_range constraints with
  | None => Ok None
  | Some dr =>
      s <- _shift_date a (dr_start dr) ;;
      e <- _shift_date a (dr_end dr) ;;
      Ok (Some (MkDateRange s e))
  end.

Definition between_clause (dr : DateRange) : string :=
  "DATE(o.OrderDate) BETWEEN '" ++ dr_start dr ++ "' AND '" ++ dr_end dr ++ "'".

Definition _build_filters (a : Agent) (constraints : Constraints)
  : result (string * string) :=
  dr <- _get_sql_date_range a constraints ;;
  let '(date_clause, where_parts) :=
    match dr with
    | Some d => (between_clause d, [between_clause d])
    | None => ("", [])
    end in
  let where_sql :=
    match where_parts with
    | [] => ""
    | _ => "WHERE " ++ join " AND " where_parts
    end in
  Ok (date_clause, where_sql).

Definition indent16 : string := "                ".
Definition indent12 : string := "            ".

(** The text of a triple-quoted template: every line of the body on a
    line of its own behind sixteen blanks, the closing quotes behind
    twelve. *)
Definition template (lines : list string) : string :=
  String.concat "" (map (fun l => nl ++ indent16 ++ l) lines) ++ nl ++ indent12.

Definition order_details : string := dq ++ "Order Details" ++ dq.

Definition top_products_sql (limit_n : nat) : string :=
  strip (template
    [ "SELECT p.ProductName AS product,";
      "       SUM(od.UnitPrice * od.Quantity * (1 - od.Discount)) AS revenue";
      "FROM " ++ order_details ++ " od";
      "JOIN Products p ON p.ProductID = od.ProductID";
      "GROUP BY p.ProductID";
      "ORDER BY revenue DESC";
      "LIMIT " ++ str_of_nat limit_n ++ ";" ]).

Definition top_category_sql (where_clause : string) : string :=
  strip (template
    [ "SELECT c.CategoryName AS category,";
      "       SUM(od.Quantity) AS quantity";
      "FROM " ++ order_details ++ " od";
      "JOIN Orders o ON o.OrderID = od.OrderID";
      "JOIN Products p ON p.ProductID = od.ProductID";
      "JOIN Categories c ON c.CategoryID = p.CategoryID";
      where_clause;
      "GROUP BY c.CategoryID";
      "ORDER BY quantity DESC";
      "LIMIT 1;" ]).

Definition aov_sql (where_clause : string) : string :=
  strip (template
    [ "SELECT SUM(od.UnitPrice * od.Quantity * (1 - od.Discount))";
      "       / COUNT(DISTINCT o.OrderID) AS aov";
      "FROM " ++ order_details ++ " od";
      "JOIN Orders o ON o.OrderID = od.OrderID";
      where_clause ++ ";" ]).

Definition category_revenue_sql (join_clause where_sql : string) : string :=
  strip (template
    [ "SELECT SUM(od.UnitPrice * od.Quantity * (1 - od.Discount)) AS revenue";
      "FROM " ++ order_details ++ " od";
      "JOIN Orders o ON o.OrderID = od.OrderID";
      "JOIN Products p ON p.ProductID = od.ProductID";
      join_clause;
      where_sql ++ ";" ]).

Definition customer_margin_sql (where_clause : string) : string :=
  strip (template
    [ "SELECT c.CompanyName AS customer,";
      "       SUM(od.UnitPrice * 0.3 * od.Quantity * (1 - od.Discount)) AS margin";
      "FROM " ++ order_details ++ " od";
      "JOIN Orders o ON o.OrderID = od.OrderID";
      "JOIN Customers c ON c.CustomerID = o.CustomerID";
      where_clause;
      "GROUP BY c.CustomerID";
      "ORDER BY margin DESC";
      "LIMIT 1;" ]).

(** [constraints.get("category")] taken as a condition *)
Definition truthy_opt (s : option string) : bool :=
  match s with
  | Some v => truthy v
  | None => false
  end.

Definition category_text (s : option string) : string :=
  match s with
  | Some v => v
  | None => ""
  end.

Definition generate_sql (a : Agent) (question : string) (constraints : Constraints)
  : result string :=
  let q := strip (lower question) in
  let top_n := parse_top_n question in
  filters <- _build_filters a constraints ;;
  let where_clause := snd filters in
  let category := category constraints in
  if (contains "return window" q || contains "return policy" q)%bool then Ok ""
  else if (contains "top 3 products" q
           || (contains "top" q && contains "products" q && contains "revenue" q))%bool
  then
    let limit_n :=
      match top_n with
      | Some (S n) => S n
      | _ => 3%nat
      end in
    Ok (top_products_sql limit_n)
  else if ((contains "highest" q || contains "top" q)
           && contains "category" q && contains "quantity" q)%bool
  then Ok (top_category_sql where_clause)
  else if (contains "aov" q || contains "average order value" q)%bool
  then Ok (aov_sql where_clause)
  else if (contains "total revenue" q && truthy_opt category)%bool
  then
    let cat := sanitize_literal (category_text category) in
    let extra_filter := "c.CategoryName = '" ++ cat ++ "'" in
    let join_clause := "JOIN Categories c ON c.CategoryID = p.CategoryID" in
    dr <- _get_sql_date_range a constraints ;;
    let where_parts :=
      match dr with
      | Some d => [extra_filter; between_clause d]
      | None => [extra_filter]
      end in
    let where_sql := "WHERE " ++ join " AND " where_parts in
    Ok (category_revenue_sql join_clause where_sql)
  else if (contains "gross margin" q
           || (contains "margin" q && contains "customer" q))%bool
  then Ok (customer_margin_sql where_clause)
  else Ok "".

(* ------------------------------------------------------------------ *)
(** ** [HybridAgent]: execution and textual repair

    The queries sent to the store are kept in a log, oldest first; each
    call of [sqlite.execute] appends one. *)

Definition _repair_sql (sql : string) : string :=
  let sql :=
    if negb (contains order_details sql)
    then replace "Order Details" order_details sql
    else sql in
  let sql := replace nl " " sql in
  let sql := strip (Re.sub_spaces sql) in
  if negb (endswith sql ";") then sql ++ ";" else sql.

Definition empty_result : SqlResult :=
  {| success := true; error := None; columns := []; rows := [] |}.

Definition execute_sql (a : Agent) (log : list string) (sql : string) (attempt : Z)
  : (string * SqlResult) * list string :=
  if negb (truthy (strip sql)) then (("", empty_result), log)
  else
    let result := sqlite_execute a log sql in
    let log1 := (log ++ [sql])%list in
    if success result then ((sql, result), log1)
    else if max_repairs a <=? attempt then ((sql, result), log1)
    else
      let repaired_sql := _repair_sql sql in
      if String.eqb repaired_sql sql then ((sql, result), log1)
      else
        let repaired_result := sqlite_execute a log1 repaired_sql in
        let log2 := (log1 ++ [repaired_sql])%list in
        if success repaired_result then ((repaired_sql, repaired_result), log2)
        else ((repaired_sql, repaired_result), log2).

Definition _build_citations (sql : string) (chunks : list Chunk) : list string :=
  (extract_tables_from_sql sql
   ++ flat_map
        (fun chunk =>
           match chunk_id chunk with
           | Some cid => if truthy cid then [cid] else []
           | None => []
           end)
        chunks)%list.

(* ------------------------------------------------------------------ *)
(** ** [Retriever.search] *)

Definition fneg (f : pyfloat) : pyfloat :=
  match f with
  | FNan => FNan
  | FInf b => FInf (negb b)
  | FFin q => FFin (- q)
  end.

(** The order [numpy] sorts floats in: NaN after everything else. *)
Definition fle (x y : pyfloat) : bool :=
  match x, y with
  | _, FNan => true
  | FNan, _ => false
  | FInf true, _ => true
  | _, FInf false => true
  | FInf false, _ => false
  | _, FInf true => false
  | FFin p, FFin q => Qle_bool p q
  end.

Fixpoint insert_key (x : nat * pyfloat) (l : list (nat * pyfloat))
  : list (nat * pyfloat) :=
  match l with
  | [] => [x]
  | y :: l' => if fle (snd y) (snd x) then y :: insert_key x l' else x :: l
  end.

(** [np.argsort(v)]: the indices of [v] in ascending order of the
    values, equal values in index order. *)
Definition argsort (v : list pyfloat) : list nat :=
  map fst
    (fold_left (fun acc x => insert_key x acc)
       (combine (seq 0 (List.length v)) v) []).

Fixpoint map_result {A B : Type} (f : A -> result B) (l : list A)
  : result (list B) :=
  match l with
  | [] => Ok []
  | x :: l' =>
      y <- f x ;;
      ys <- map_result f l' ;;
      Ok (y :: ys)
  end.

Definition search (r : Retriever) (query : string) (top_k : nat)
  : result (list Chunk) :=
  if negb (loaded r) then Raise RuntimeError
  else
    let sims := similarities r query in
    if forallb is_zero sims then Ok []
    else
      let top_idx := firstn top_k (argsort (map fneg sims)) in
      map_result
        (fun idx =>
           match nth_error (chunk_meta r) idx, nth_error (chunks r) idx,
                 nth_error sims idx with
           | Some meta, Some text, Some sim =>
               Ok {| chunk_id := Some (meta_chunk_id meta);
                     source := Some (meta_source meta);
                     content := Some text;
                     score := sim |}
           | _, _, _ => Raise IndexError
           end)
        top_idx.

(** [HybridAgent.retrieve] *)
Definition retrieve (a : Agent) (question : string) (top_k : nat)
  : result (list Chunk) :=
  search (retriever a) question top_k.

(* ------------------------------------------------------------------ *)
(** ** Answer synthesis *)

Inductive answer : Type :=
| AValue (v : value)
| ARow (r : row)
| AList (l : list row).

Module Output.
Record t : Type := Mk {
  id : string;
  final_answer : answer;
  sql : string;
  confidence : pyfloat;
  explanation : string;
  citations : list string
}.
End Output.

Section Synthesis.

(** The readings of a text cell by the built-ins [float] and [int];
    [None] is their [ValueError]. *)
Variable float_of_text : string -> option pyfloat.
Variable int_of_text : string -> option Z.

(** [float(val)] *)
Definition py_float (val : value) : result pyfloat :=
  match val with
  | VNone => Raise TypeError
  | VInt z => Ok (FFin (inject_Z z))
  | VFloat f => Ok f
  | VStr s | VBytes s =>
      match float_of_text s with
      | Some f => Ok f
      | None => Raise ValueError
      end
  end.

(** [int(val)] *)
Definition py_int (val : value) : result Z :=
  match val with
  | VNone => Raise TypeError
  | VInt z => Ok z
  | VFloat FNan => Raise ValueError
  | VFloat (FInf _) => Raise OverflowError
  | VFloat (FFin q) => Ok (Z.quot (Qnum q) (Zpos (Qden q)))
  | VStr s | VBytes s =>
      match int_of_text s with
      | Some z => Ok z
      | None => Raise ValueError
      end
  end.

Definition safe_round_float (val : value) (ndigits : Z) : pyfloat :=
  match py_float val with
  | Ok f => py_round f ndigits
  | Raise _ => FNan
  end.

(** [list(d.values())[0]] *)
Definition first_value (d : row) : result value :=
  match values d with
  | v :: _ => Ok v
  | [] => Raise IndexError
  end.

(** One cell of a list or object answer. *)
Definition format_value (v : value) : value :=
  match v with
  | VFloat _ => VFloat (safe_round_float v 2)
  | VInt z => VInt z
  | _ => v
  end.

Definition format_row (r : row) : row :=
  fold_left (fun formatted kv => dict_set (lower (fst kv)) (format_value (snd kv)) formatted)
    r [].

Definition conf (q : Q) : pyfloat := FFin q.

Definition synthesize (item_id question format_hint route sql : string)
  (sql_res : SqlResult) (chunks : list Chunk) (constraints : Constraints)
  : result Output.t :=
  let parsed_hint := parse_format_hint format_hint in
  let rows := rows sql_res in
  let success := success sql_res in
  shaped <-
    match parsed_hint with
    | HInt =>
        value <-
          match extract_policy_number question chunks, rows with
          | Some n, _ => Ok (Some (Z.of_nat n))
          | None, r0 :: _ =>
              v <- first_value r0 ;;
              z <- py_int v ;;
              Ok (Some z)
          | None, [] => Ok None
          end ;;
        Ok (AValue (VInt (match value with Some z => z | None => 0 end)),
            match value with Some _ => conf 0.85 | None => conf 0.4 end,
            "Matched return window from policy docs.")
    | HFloat =>
        numeric <-
          match rows with
          | r0 :: _ =>
              v <- first_value r0 ;;
              Ok (Some (safe_round_float v 2))
          | [] => Ok None
          end ;;
        Ok (AValue (VFloat (match numeric with Some f => f | None => FFin 0 end)),
            (if (success && negb (Nat.eqb (List.length rows) 0))%bool
             then conf 0.9 else conf 0.5),
            "Computed metric via SQL over Orders/Order Details.")
    | HList _ =>
        let out := map format_row rows in
        Ok (AList out,
            match out with
            | [] => conf 0.5
            | _ => conf 0.9
            end,
            "Ranked entities using revenue aggregation.")
    | HObject _ =>
        Ok (match rows with
            | r0 :: _ => ARow (format_row r0)
            | [] => ARow []
            end,
            match rows with
            | [] => conf 0.5
            | _ => conf 0.9
            end,
            "Derived structured answer from SQL results.")
    | HStr | HEmpty =>
        Ok (match rows with
            | r0 :: _ => ARow r0
            | [] => AValue (VStr "")
            end,
            conf 0.5,
            "Returned raw SQL output.")
    end ;;
  let '(final_answer, confidence, explanation) := shaped in
  let citations := _build_citations sql chunks in
  Ok {| Output.id := item_id;
        Output.final_answer := final_answer;
        Output.sql := sql;
        Output.confidence := py_round confidence 2;
        Output.explanation := explanation;
        Output.citations := citations |}.

End Synthesis.

(* ------------------------------------------------------------------ *)
(** ** The agent state of [lang_graph.py] *)

Module AgentState.
Record t : Type := Mk {
  item_id : string;
  question : string;
  format_hint : string;
  route : string;
  retrieved_chunks : list Chunk;
  constraints : Constraints;
  sql : string;
  sql_res : SqlResult;
  final_answer : option answer;
  confidence : pyfloat;
  explanation : string;
  citations : list string;
  tables : list string;
  table_schemas : list (string * list row);
  repairs : Z;
  max_repairs : Z;
  needs_repair : bool;
  validation_error : option string
}.

(** The graph runtime builds the state of these fields only: a key of a
    node's update that is not a field of the dataclass is not merged.
    The validator returns a key [next_step] and the synthesizer a key
    [id]; neither is a field, so looking them up on a state finds
    nothing. *)
Definition next_step (s : t) : option string := None.
Definition id (s : t) : option string := None.

(** [AgentState(item_id=..., question=..., format_hint=...)] *)
Definition new (item_id question format_hint : string) : t :=
  {| item_id := item_id;
     question := question;
     format_hint := format_hint;
     route := "";
     retrieved_chunks := [];
     constraints := MkConstraints None None None;
     sql := "";
     sql_res := MkSqlResult true None [] [];
     final_answer := None;
     confidence := FFin 0;
     explanation := "";
     citations := [];
     tables := [];
     table_schemas := [];
     repairs := 0;
     max_repairs := 2;
     needs_repair := false;
     validation_error := Some "" |}.

(** The merges of the partial updates the nodes return. *)
Definition with_route (r : string) (s : t) : t :=
  Mk (item_id s) (question s) (format_hint s) r (retrieved_chunks s)
     (constraints s) (sql s) (sql_res s) (final_answer s) (confidence s)
     (explanation s) (citations s) (tables s) (table_schemas s) (repairs s)
     (max_repairs s) (needs_repair s) (validation_error s).

Definition with_chunks (c : list Chunk) (s : t) : t :=
  Mk (item_id s) (question s) (format_hint s) (route s) c
     (constraints s) (sql s) (sql_res s) (final_answer s) (confidence s)
     (explanation s) (citations s) (tables s) (table_schemas s) (repairs s)
     (max_repairs s) (needs_repair s) (validation_error s).

Definition with_constraints (c : Constraints) (s : t) : t :=
  Mk (item_id s) (question s) (format_hint s) (route s) (retrieved_chunks s)
     c (sql s) (sql_res s) (final_answer s) (confidence s)
     (explanation s) (citations s) (tables s) (table_schemas s) (repairs s)
     (max_repairs s) (needs_repair s) (validation_error s).

Definition with_schema (tl : list string) (ts : list (string * list row)) (s : t) : t :=
  Mk (item_id s) (question s) (format_hint s) (route s) (retrieved_chunks s)
     (constraints s) (sql s) (sql_res s) (final_answer s) (confidence s)
     (explanation s) (citations s) tl ts (repairs s)
     (max_repairs s) (needs_repair s) (validation_error s).

Definition with_sql (q : string) (s : t) : t :=
  Mk (item_id s) (question s) (format_hint s) (route s) (retrieved_chunks s)
     (constraints s) q (sql_res s) (final_answer s) (confidence s)
     (explanation s) (citations s) (tables s) (table_schemas s) (repairs s)
     (max_repairs s) (needs_repair s) (validation_error s).

Definition with_sql_res (r : SqlResult) (s : t) : t :=
  Mk (item_id s) (question s) (format_hint s) (route s) (retrieved_chunks s)
     (constraints s) (sql s) r (final_answer s) (confidence s)
     (explanation s) (citations s) (tables s) (table_schemas s) (repairs s)
     (max_repairs s) (needs_repair s) (validation_error s).

Definition with_repairs (n : Z) (s : t) : t :=
  Mk (item_id s) (question s) (format_hint s) (route s) (retrieved_chunks s)
     (constraints s) (sql s) (sql_res s) (final_answer s) (confidence s)
     (explanation s) (citations s) (tables s) (table_schemas s) n
     (max_repairs s) (needs_repair s) (validation_error s).

(** The update of the validator; its key [next_step] is not a field. *)
Definition with_validation (nr : bool) (err : option string) (next : string) (s : t) : t :=
  Mk (item_id s) (question s) (format_hint s) (route s) (retrieved_chunks s)
     (constraints s) (sql s) (sql_res s) (final_answer s) (confidence s)
     (explanation s) (citations s) (tables s) (table_schemas s) (repairs s)
     (max_repairs s) nr err.

(** The update of the synthesizer; its key [id] is not a field. *)
Definition with_output (o : Output.t) (s : t) : t :=
  Mk (item_id s) (question s) (format_hint s) (route s) (retrieved_chunks s)
     (constraints s) (Output.sql o) (sql_res s) (Some (Output.final_answer o))
     (Output.confidence o) (Output.explanation o) (Output.citations o)
     (tables s) (table_schemas s) (repairs s)
     (max_repairs s) (needs_repair s) (validation_error s).
End AgentState.

Module TraceEntry.
Record t : Type := Mk {
  item_id : string;
  question : string;
  route : string;
  constraints : Constraints;
  sql : string;
  sql_success : bool;
  repairs : Z;
  needs_repair : bool
}.
End TraceEntry.

(** What a run works on: the agent state, the log of the queries sent
    to the store, and the lines appended to the trace file. *)
Record World : Type := MkWorld {
  state : AgentState.t;
  store_log : list string;
  trace_file : list TraceEntry.t
}.

Definition on_state (f : AgentState.t -> AgentState.t) (w : World) : World :=
  MkWorld (f (state w)) (store_log w) (trace_file w).

(* ------------------------------------------------------------------ *)
(** ** The nodes of the graph *)

Inductive node : Type :=
| Router | RetrieverNode | Planner | Schema | Nl2sql
| Executor | Validator | Repair | Synthesizer | Trace.

Definition node_eqb (x y : node) : bool :=
  match x, y with
  | Router, Router | RetrieverNode, RetrieverNode | Planner, Planner
  | Schema, Schema | Nl2sql, Nl2sql | Executor, Executor
  | Validator, Validator | Repair, Repair | Synthesizer, Synthesizer
  | Trace, Trace => true
  | _, _ => false
  end.

Section Graph.

Variable float_of_text : string -> option pyfloat.
Variable int_of_text : string -> option Z.
Variable agent : Agent.

Definition node_router (w : World) : result World :=
  let r := route agent (AgentState.question (state w)) in
  Ok (on_state (AgentState.with_route r) w).

Definition node_retriever (w : World) : result World :=
  found <- retrieve agent (AgentState.question (state w)) 10 ;;
  Ok (on_state (AgentState.with_chunks found) w).

Definition node_planner (w : World) : result World :=
  let st := state w in
  let constraints := plan (AgentState.question st) (AgentState.retrieved_chunks st) in
  Ok (on_state (AgentState.with_constraints constraints) w).

Definition node_schema (w : World) : result World :=
  Ok (on_state (AgentState.with_schema (tables (artifacts agent))
                  (table_schemas (artifacts agent))) w).

Definition node_nl2sql (w : World) : result World :=
  let st := state w in
  sql <- generate_sql agent (AgentState.question st) (AgentState.constraints st) ;;
  Ok (on_state (AgentState.with_sql sql) w).

Definition node_executor (w : World) : result World :=
  let st := state w in
  let '((executed_sql, sql_res), log) :=
    execute_sql agent (store_log w) (AgentState.sql st) (AgentState.repairs st) in
  Ok (MkWorld (AgentState.with_sql_res sql_res (AgentState.with_sql executed_sql st))
              log (trace_file w)).

Definition node_validator (w : World) : result World :=
  let st := state w in
  let budget_left := AgentState.repairs st <? AgentState.max_repairs st in
  let '(needs_repair, validation_error) :=
    if negb (truthy (AgentState.sql st)) then (budget_left, Some "Empty SQL")
    else if negb (success (AgentState.sql_res st))
    then (budget_left, error (AgentState.sql_res st))
    else
      match rows (AgentState.sql_res st) with
      | [] => (budget_left, Some "No rows")
      | _ => (false, Some "")
      end in
  let outcome := if needs_repair then "repair" else "synthesize" in
  Ok (on_state (AgentState.with_validation needs_repair validation_error outcome) w).

(** [updated_constraints.pop(key)] for the key the attempt is due to drop. *)
Definition drop_constraint (repairs : Z) (c : Constraints) : Constraints :=
  if ((repairs =? 0)
      && match date_range c with Some _ => true | None => false end)%bool
  then MkConstraints None (category c) (kpi c)
  else if ((repairs =? 1) && truthy_opt (category c))%bool
  then MkConstraints (date_range c) None (kpi c)
  else c.

Definition node_repair (w : World) : result World :=
  let st := state w in
  let updated_constraints :=
    drop_constraint (AgentState.repairs st) (AgentState.constraints st) in
  sql <- generate_sql agent (AgentState.question st) updated_constraints ;;
  Ok (on_state
        (fun s =>
           AgentState.with_repairs (AgentState.repairs st + 1)
             (AgentState.with_sql sql
                (AgentState.with_constraints updated_constraints s)))
        w).

Definition node_synthesizer (w : World) : result World :=
  let st := state w in
  out <- synthesize float_of_text int_of_text
           (AgentState.item_id st) (AgentState.question st)
           (AgentState.format_hint st) (AgentState.route st)
           (AgentState.sql st) (AgentState.sql_res st)
           (AgentState.retrieved_chunks st) (AgentState.constraints st) ;;
  Ok (on_state (AgentState.with_output out) w).

Definition node_trace (w : World) : result World :=
  let st := state w in
  let log_entry :=
    {| TraceEntry.item_id := AgentState.item_id st;
       TraceEntry.question := AgentState.question st;
       TraceEntry.route := AgentState.route st;
       TraceEntry.constraints := AgentState.constraints st;
       TraceEntry.sql := AgentState.sql st;
       TraceEntry.sql_success := success (AgentState.sql_res st);
       TraceEntry.repairs := AgentState.repairs st;
       TraceEntry.needs_repair := AgentState.needs_repair st |} in
  Ok (MkWorld st (store_log w) (trace_file w ++ [log_entry])%list).

Definition planner_branch (st : AgentState.t) : string :=
  if mem (AgentState.route st) ["sql"; "hybrid"] then "sql" else "rag".

(** [getattr(state, "next_step", "synthesize")] *)
Definition validator_branch (st : AgentState.t) : string :=
  match AgentState.next_step st with
  | Some s => s
  | None => "synthesize"
  end.

(** The body of a node. *)
Definition run_node (n : node) (w : World) : result World :=
  match n with
  | Router => node_router w
  | RetrieverNode => node_retriever w
  | Planner => node_planner w
  | Schema => node_schema w
  | Nl2sql => node_nl2sql w
  | Executor => node_executor w
  | Validator => node_validator w
  | Repair => node_repair w
  | Synthesizer => node_synthesizer w
  | Trace => node_trace w
  end.

(** The edges of [build_graph]; [None] is [END]. *)
Definition next_node (n : node) (st : AgentState.t) : result (option node) :=
  match n with
  | Router => Ok (Some RetrieverNode)
  | RetrieverNode => Ok (Some Planner)
  | Planner =>
      if String.eqb (planner_branch st) "rag" then Ok (Some Synthesizer)
      else Ok (Some Schema)
  | Schema => Ok (Some Nl2sql)
  | Nl2sql => Ok (Some Executor)
  | Executor => Ok (Some Validator)
  | Validator =>
      if String.eqb (validator_branch st) "repair" then Ok (Some Repair)
      else if String.eqb (validator_branch st) "synthesize" then Ok (Some Synthesizer)
      else Raise OtherError
  | Repair => Ok (Some Executor)
  | Synthesizer => Ok (Some Trace)
  | Trace => Ok None
  end.

Definition step (n : node) (w : World) : result (option node * World) :=
  w' <- run_node n w ;;
  n' <- next_node n (state w') ;;
  Ok (n', w').

(** The driver: runs nodes from [n] until [END] or until a node
    raises.  The answer is the last world, the nodes entered, in order,
    and the exception if one was raised; when a node raises, the world is
    the one the node was entered with.  [None] only when [fuel] steps
    were not enough. *)
Fixpoint run (fuel : nat) (n : node) (w : World)
  : option (World * list node * option exn) :=
  match fuel with
  | O => None
  | S fuel' =>
      match step n w with
      | Raise e => Some (w, [n], Some e)
      | Ok (None, w') => Some (w', [n], None)
      | Ok (Some n', w') =>
          match run fuel' n' w' with
          | Some (w'', visited, r) => Some (w'', n :: visited, r)
          | None => None
          end
      end
  end.

(** [compiled.invoke(state)] on a fresh world. *)
Definition invoke (fuel : nat) (st : AgentState.t)
  : option (World * list node * option exn) :=
  run fuel Router (MkWorld st [] []).

End Graph.

Definition count_node (n : node) (visited : list node) : nat :=
  List.length (filter (node_eqb n) visited).


(* ------------------------------------------------------------------ *)
(** ** [RouterModule] of [dspy_signatures.py] *)

Definition _heuristic_predict (question : string) : string :=
  let q := lower question in
  if any_in ["return"; "policy"; "definition"; "doc"] q then "rag"
  else if (any_in ["top"; "list"; "rank"] q && contains "revenue" q)%bool then "sql"
  else "hybrid".

(** [RouterModule.forward] over a predictor: the prediction, or the
    heuristic label when the predictor raises. *)
Definition forward (predictor : string -> result (option string))
  (question : string) : result (option string) :=
  match predictor question with
  | Ok prediction => Ok prediction
  | Raise _ => Ok (Some (_heuristic_predict question))
  end.

(* ------------------------------------------------------------------ *)
(** ** [project_contract] of [run_agent_hybrid.py] *)

Module Contract.
Record t : Type := Mk {
  id : string;
  final_answer : option answer;
  sql : string;
  confidence : pyfloat;
  explanation : string;
  citations : list string
}.
End Contract.

(** The output line of an item, read off the state a run ends in. *)
Definition project_contract (data : AgentState.t) : Contract.t :=
  {| Contract.id :=
       match AgentState.id data with
       | Some i => if truthy i then i else AgentState.item_id data
       | None => AgentState.item_id data
       end;
     Contract.final_answer := AgentState.final_answer data;
     Contract.sql := AgentState.sql data;
     Contract.confidence := AgentState.confidence data;
     Contract.explanation := AgentState.explanation data;
     Contract.citations := AgentState.citations data |}.
Unset Implicit Arguments.

(* ------------------------------------------------------------------ *)
(** ** Sample agents, stores and questions *)

Definition the_question : string := "Total revenue from Beverages in June 1997".

Definition no_index : Retriever :=
  {| chunks := []; chunk_meta := []; loaded := true; similarities := fun _ => [] |}.

Definition failing_store : list string -> string -> SqlResult :=
  fun _ _ => {| success := false; error := Some "syntax error";
                columns := []; rows := [] |}.

(** An agent whose predictor answers [label] to every question and whose
    store fails every query. *)
Definition agent_predicting (label : option string) (offset : Z) : Agent :=
  {| router_module := fun _ => Ok label;
     retriever := no_index;
     sqlite_execute := failing_store;
     max_repairs := 2;
     artifacts := MkArtifacts [] [];
     year_offset := offset |}.


(** An index of one chunk that shares no vocabulary with any query. *)
Definition zero_index : Retriever :=
  {| chunks := ["Returns are accepted within 14 days."];
     chunk_meta := [MkChunkMeta "policy.md::chunk_0" "policy.md" 0];
     loaded := true;
     similarities := fun _ => [FFin 0] |}.

Definition agent_with_index (r : Retriever) : Agent :=
  {| router_module := fun _ => Raise OtherError;
     retriever := r;
     sqlite_execute := failing_store;
     max_repairs := 2;
     artifacts := MkArtifacts [] [];
     year_offset := 0 |}.

(** Readings of text cells for the sample runs: no text cell reads as
    a number. *)
Definition no_float_text : string -> option pyfloat := fun _ => None.
Definition no_int_text : string -> option Z := fun _ => None.

(** The result of a SUM over no rows: one row holding NULL. *)
Definition null_sum_result : SqlResult :=
  {| success := true; error := None; columns := ["revenue"];
     rows := [[("revenue", VNone)]] |}.

Definition revenue_result : SqlResult :=
  {| success := true; error := None; columns := ["Product"; "Revenue"];
     rows := [[("Product", VStr "Chai"); ("Revenue", VFloat (FFin 12.347))]] |}.

Definition no_constraints : Constraints := MkConstraints None None None.

Definition categories_join : string :=
  "JOIN Categories c ON c.CategoryID = p.CategoryID".

(** The filtered-sum query over order lines, orders, products and
    categories, with the filter [where_sql]. *)
Definition filtered_sum_sql (where_sql : string) : string :=
  "SELECT SUM(od.UnitPrice * od.Quantity * (1 - od.Discount)) AS revenue"
  ++ nl ++ indent16 ++ "FROM " ++ dq ++ "Order Details" ++ dq ++ " od"
  ++ nl ++ indent16 ++ "JOIN Orders o ON o.OrderID = od.OrderID"
  ++ nl ++ indent16 ++ "JOIN Products p ON p.ProductID = od.ProductID"
  ++ nl ++ indent16 ++ "JOIN Categories c ON c.CategoryID = p.CategoryID"
  ++ nl ++ indent16 ++ where_sql ++ ";".

Definition beverages_june_1997_sql : string :=
  filtered_sum_sql
    "WHERE c.CategoryName = 'Beverages' AND DATE(o.OrderDate) BETWEEN '1997-06-01' AND '1997-06-30'".

Definition beverages_unfiltered_by_date_sql : string :=
  filtered_sum_sql "WHERE c.CategoryName = 'Beverages'".

(** A chunk of the marketing calendar. *)
Definition calendar_chunk : Chunk :=
  {| chunk_id := Some "marketing_calendar.md::chunk_1";
     source := Some "marketing_calendar.md";
     content := Some "Summer Beverages 1997: 1997-06-01 to 1997-06-30";
     score := FFin 0.4 |}.

(** A store that answers every query with the one-row NULL result. *)
Definition null_sum_store : list string -> string -> SqlResult :=
  fun _ _ => null_sum_result.

Definition agent_over (store : list string -> string -> SqlResult) (offset : Z)
  : Agent :=
  {| router_module := fun _ => Raise OtherError;
     retriever := zero_index;
     sqlite_execute := store;
     max_repairs := 2;
     artifacts := MkArtifacts [] [];
     year_offset := offset |}.

Definition leap_day_question : string :=
  "Total revenue from Beverages from 1996-02-29 to 1996-03-31".

Definition june_31_question : string :=
  "Total revenue from Beverages from 1997-06-01 to 1997-06-31".

Definition top_products_question : string := "Top 3 products by revenue".

(** A run from the router on a fresh state, reduced to the nodes
    entered and the exception raised. *)
Definition run_item (a : Agent) (item_id question format_hint : string)
  : option (World * list node * option exn) :=
  invoke no_float_text no_int_text a 40
    (AgentState.new item_id question format_hint).

Definition path_and_exception (r : option (World * list node * option exn))
  : option (list node * option exn) :=
  match r with
  | Some (_, visited, e) => Some (visited, e)
  | None => None
  end.

Definition final_world (r : option (World * list node * option exn))
  : option World :=
  match r with
  | Some (w, _, _) => Some w
  | None => None
  end.




(* ------------------------------------------------------------------ *)
(** ** Vocabulary of the properties *)

Fixpoint all_chars (p : ascii -> bool) (s : string) : bool :=
  match s with
  | EmptyString => true
  | String c s' => (p c && all_chars p s')%bool
  end.


(** The two ways through the graph of [build_graph] from its entry
    point. *)
Definition sql_path : list node :=
  [Router; RetrieverNode; Planner; Schema; Nl2sql; Executor; Validator;
   Synthesizer; Trace].

Definition rag_path : list node :=
  [Router; RetrieverNode; Planner; Synthesizer; Trace].

(** What makes the validator ask for a repair while the budget lasts:
    no query text, a failed result, or no rows. *)
Definition repair_wanted (sql : string) (sql_res : SqlResult) : bool :=
  (negb (truthy sql) || negb (success sql_res)
   || match rows sql_res with [] => true | _ :: _ => false end)%bool.

(** The worlds a run passes through, from the router on a fresh world. *)
Inductive reaches
  (float_of_text : string -> option pyfloat) (int_of_text : string -> option Z)
  (a : Agent) (st0 : AgentState.t) : node -> World -> Prop :=
| reaches_start :
    reaches float_of_text int_of_text a st0 Router (MkWorld st0 [] [])
| reaches_step (n n' : node) (w w' : World) :
    reaches float_of_text int_of_text a st0 n w ->
    step float_of_text int_of_text a n w = Ok (Some n', w') ->
    reaches float_of_text int_of_text a st0 n' w'.

(* ------------------------------------------------------------------ *)
(** ** Vocabulary of the further properties *)

(** The body of a quoted literal as the query language reads it, from
    behind the opening quote: two quotes stand for one, a single quote
    ends the literal.  The answer is the body and the text behind the
    closing quote; [None] when the literal is not closed. *)
Fixpoint read_literal (s : string) : option (string * string) :=
  match s with
  | EmptyString => None
  | String c s' =>
      if Ascii.eqb c "'"%char then
        match s' with
        | String d s'' =>
            if Ascii.eqb d "'"%char then
              match read_literal s'' with
              | Some (body, rest) => Some (String "'"%char body, rest)
              | None => None
              end
            else Some (EmptyString, s')
        | EmptyString => Some (EmptyString, s')
        end
      else
        match read_literal s' with
        | Some (body, rest) => Some (String c body, rest)
        | None => None
        end
  end.

(** No whitespace but single blanks, none of them first. *)
Fixpoint single_spaced (after_space : bool) (s : string) : bool :=
  match s with
  | EmptyString => true
  | String c s' =>
      if is_space c
      then (Ascii.eqb c " "%char && negb after_space && single_spaced true s')%bool
      else single_spaced false s'
  end.

(** Every single quote doubled. *)
Fixpoint escape (s : string) : string :=
  match s with
  | EmptyString => EmptyString
  | String c s' =>
      if Ascii.eqb c "'"%char then String "'"%char (String "'"%char (escape s'))
      else String c (escape s')
  end.



(** A store that answers every query with one row of revenue. *)
Definition revenue_store : list string -> string -> SqlResult :=
  fun _ _ => revenue_result.

(** What holds along a run started on [st0]: the item is the same, no
    trace line is written before the trace node, the route is the
    resolved one once the router has run, the answer is written by the
    synthesizer only, and on entry to the trace node the output fields
    are in place. *)
Definition item_in_progress (a : Agent) (st0 : AgentState.t)
  (n : node) (w : World) : Prop :=
  let st := state w in
  AgentState.item_id st = AgentState.item_id st0
  /\ AgentState.question st = AgentState.question st0
  /\ trace_file w = []
  /\ (n <> Router -> AgentState.route st = route a (AgentState.question st0))
  /\ (n <> Trace -> AgentState.final_answer st = AgentState.final_answer st0)
  /\ (n = Trace ->
      AgentState.final_answer st <> None
      /\ AgentState.citations st
         = _build_citations (AgentState.sql st) (AgentState.retrieved_chunks st)).
(* ================================================================== *)
(** * Properties *)

(* ------------------------------------------------------------------ *)
(** ** Tactics for the state record *)

Ltac simp_state :=
  cbn [state store_log trace_file on_state
       AgentState.repairs AgentState.max_repairs AgentState.next_step
       AgentState.needs_repair AgentState.route AgentState.sql AgentState.sql_res
       AgentState.with_route AgentState.with_chunks AgentState.with_constraints
       AgentState.with_schema AgentState.with_sql AgentState.with_sql_res
       AgentState.with_repairs AgentState.with_validation AgentState.with_output
       TraceEntry.repairs bind next_node validator_branch] in *.

Ltac simp_run :=
  cbn [bind next_node run_node state store_log trace_file on_state
       AgentState.item_id AgentState.question AgentState.format_hint
       AgentState.route AgentState.retrieved_chunks AgentState.constraints
       AgentState.sql AgentState.sql_res AgentState.final_answer
       AgentState.confidence AgentState.explanation AgentState.citations
       AgentState.tables AgentState.table_schemas AgentState.repairs
       AgentState.max_repairs AgentState.needs_repair
       AgentState.validation_error AgentState.next_step AgentState.id
       AgentState.new
       AgentState.with_route AgentState.with_chunks AgentState.with_constraints
       AgentState.with_schema AgentState.with_sql AgentState.with_sql_res
       AgentState.with_repairs AgentState.with_validation AgentState.with_output
       planner_branch validator_branch].

Ltac simp_run_in H :=
  cbn [bind next_node run_node state store_log trace_file on_state
       AgentState.item_id AgentState.question AgentState.format_hint
       AgentState.route AgentState.retrieved_chunks AgentState.constraints
       AgentState.sql AgentState.sql_res AgentState.final_answer
       AgentState.confidence AgentState.explanation AgentState.citations
       AgentState.tables AgentState.table_schemas AgentState.repairs
       AgentState.max_repairs AgentState.needs_repair
       AgentState.validation_error AgentState.next_step AgentState.id
       AgentState.new
       AgentState.with_route AgentState.with_chunks AgentState.with_constraints
       AgentState.with_schema AgentState.with_sql AgentState.with_sql_res
       AgentState.with_repairs AgentState.with_validation AgentState.with_output
       planner_branch validator_branch] in H.

(* ------------------------------------------------------------------ *)
(** ** Router *)

Lemma mem_three (x a b c : string) :
  mem x [a; b; c] = true -> x = a \/ x = b \/ x = c.
Proof.
  unfold mem; simpl.
  destruct (String.eqb_spec x a) as [->|_]; [now left|].
  destruct (String.eqb_spec x b) as [->|_]; [now right; left|].
  destruct (String.eqb_spec x c) as [->|_]; [now right; right|].
  discriminate.
Qed.

Lemma fallback_on_sql_signal (question : string) :
  any_in sql_signals (lower question) = true ->
  _fallback_route question = "hybrid".
Proof.
  intros H. unfold _fallback_route. rewrite H.
  now rewrite Bool.andb_false_r.
Qed.

Lemma fallback_two_valued (question : string) :
  _fallback_route question = "rag" \/ _fallback_route question = "hybrid".
Proof.
  unfold _fallback_route.
  destruct (any_in doc_signals (lower question)),
           (any_in sql_signals (lower question)); simpl; auto.
Qed.

Lemma route_after_sql_signal (a : Agent) (question : string) :
  any_in sql_signals (lower question) = true ->
  route a question = "hybrid"
  \/ (route a question = "sql"
      /\ exists label, router_module a question = Ok (Some label)
                       /\ lower (strip label) = "sql").
Proof.
  intros Hsig.
  assert (Hfb : _fallback_route question = "hybrid")
    by now apply fallback_on_sql_signal.
  unfold route. rewrite Hfb.
  destruct (router_module a question) as [r|e]; [|now left].
  remember (lower (strip (route_or r "hybrid"))) as lbl eqn:Hlbl.
  destruct (mem lbl ["rag"; "sql"; "hybrid"]) eqn:Hmem; simpl; [|now left].
  apply mem_three in Hmem.
  destruct Hmem as [Hl | [Hl | Hl]]; rewrite Hl; simpl; [now left| |now left].
  right. split; [reflexivity|].
  destruct r as [label|]; unfold route_or in Hlbl.
  - destruct (truthy label).
    + exists label. split; [reflexivity | congruence].
    + vm_compute in Hlbl. congruence.
  - vm_compute in Hlbl. congruence.
Qed.

(** C1.  When the keyword heuristic finds an aggregation or metric
    signal in the question, the route [HybridAgent.route] resolves to is
    never the retrieval-only one: it is [hybrid] or [sql], whatever the
    predictor does (a valid label, an invalid or empty one, no label at
    all, or an exception). *)
Theorem route_keeps_structured_need (a : Agent) (question : string) :
  any_in sql_signals (lower question) = true ->
  route a question <> "rag"
  /\ (route a question = "hybrid" \/ route a question = "sql").
Proof.
  intros Hsig.
  destruct (route_after_sql_signal a question Hsig) as [H|[H _]];
    rewrite H; (split; [discriminate | auto]).
Qed.

Lemma route_keeps_structured_need_witness :
  any_in sql_signals (lower the_question) = true
  /\ route (agent_predicting (Some "rag") 0) the_question <> "rag".
Proof.
  split.
  - reflexivity.
  - apply (route_keeps_structured_need (agent_predicting (Some "rag") 0)
             the_question).
    reflexivity.
Defined.

(* ------------------------------------------------------------------ *)
(** ** Retrieval *)

Lemma forallb_of_all {A : Type} (p : A -> bool) (l : list A) :
  (forall x, In x l -> p x = true) -> forallb p l = true.
Proof. intros H. now apply forallb_forall. Qed.

Lemma extract_date_range_no_chunks (question : string) :
  extract_date_range question [] = extract_first_date_range question.
Proof.
  unfold extract_date_range. simpl.
  now destruct (extract_first_date_range question).
Qed.

Lemma extract_category_no_chunks (question : string) :
  extract_category question [] =
  find (fun cat => contains (lower cat) (lower question)) KNOWN_CATEGORIES.
Proof.
  unfold extract_category.
  now destruct (find (fun cat => contains (lower cat) (lower question))
                  KNOWN_CATEGORIES).
Qed.

Lemma citations_no_chunks (sql : string) :
  _build_citations sql [] = extract_tables_from_sql sql.
Proof. unfold _build_citations. simpl. apply app_nil_r. Qed.

(** C10.  When the similarity of the query against every indexed chunk
    is zero, [Retriever.search] returns the empty list, whatever [top_k]
    is.  The retriever node then leaves the item with no retrieved
    chunk, so the planner reads the question only and the citations are
    the ones drawn from the query text only. *)
Theorem search_without_shared_vocabulary (a : Agent) (w : World) :
  loaded (retriever a) = true ->
  (forall s, In s (similarities (retriever a) (AgentState.question (state w))) ->
             is_zero s = true) ->
  (forall top_k, search (retriever a) (AgentState.question (state w)) top_k = Ok [])
  /\ node_retriever a w = Ok (on_state (AgentState.with_chunks []) w)
  /\ extract_date_range (AgentState.question (state w)) []
     = extract_first_date_range (AgentState.question (state w))
  /\ extract_category (AgentState.question (state w)) []
     = find (fun cat => contains (lower cat) (lower (AgentState.question (state w))))
         KNOWN_CATEGORIES
  /\ (forall sql, _build_citations sql [] = extract_tables_from_sql sql).
Proof.
  intros Hloaded Hzero.
  assert (Hs : forall top_k,
             search (retriever a) (AgentState.question (state w)) top_k = Ok []).
  { intros top_k. unfold search. rewrite Hloaded. simpl.
    now rewrite (forallb_of_all _ _ Hzero). }
  split; [exact Hs|].
  split.
  { unfold node_retriever, retrieve. now rewrite Hs. }
  split; [apply extract_date_range_no_chunks|].
  split; [apply extract_category_no_chunks|].
  apply citations_no_chunks.
Qed.

Lemma search_without_shared_vocabulary_witness :
  search zero_index "quarterly turnover" 10 = Ok [].
Proof.
  apply (search_without_shared_vocabulary (agent_with_index zero_index)
           (MkWorld (AgentState.new "q0" "quarterly turnover" "str") [] [])).
  - reflexivity.
  - intros s [<-|[]]. reflexivity.
Defined.

(* ------------------------------------------------------------------ *)
(** ** Citations *)

Definition str_lt (x y : string) : Prop := String.ltb x y = true.
Definition str_le (x y : string) : Prop := String.leb x y = true.

Lemma In_set_add (x y : string) (l : list string) :
  In y (set_add x l) <-> y = x \/ In y l.
Proof.
  induction l as [|z l IH]; simpl.
  - intuition.
  - destruct (String.eqb_spec x z) as [->|Hne]; simpl.
    + intuition.
    + rewrite IH. intuition.
Qed.

Lemma NoDup_set_add (x : string) (l : list string) :
  NoDup l -> NoDup (set_add x l).
Proof.
  induction 1 as [|z l Hz Hl IH]; simpl.
  - constructor; [intros []|constructor].
  - destruct (String.eqb_spec x z) as [->|Hne].
    + now constructor.
    + constructor; [|exact IH].
      rewrite In_set_add. intros [->|Hin]; [now apply Hne|now apply Hz].
Qed.

Lemma fold_set_add (cs acc : list string) :
  let res := fold_left (fun tables c => set_add c tables) cs acc in
  (NoDup acc -> NoDup res) /\ (forall y, In y res <-> In y cs \/ In y acc).
Proof.
  revert acc. induction cs as [|c cs IH]; intros acc; simpl.
  - split; [auto|]. intuition.
  - destruct (IH (set_add c acc)) as [Hnd Hin]. split.
    + intros H. apply Hnd. now apply NoDup_set_add.
    + intros y. rewrite Hin, In_set_add. intuition.
Qed.

Lemma insert_sorted_perm (x : string) (l : list string) :
  Permutation (insert_sorted x l) (x :: l).
Proof.
  induction l as [|y l IH]; simpl.
  - apply Permutation_refl.
  - destruct (String.leb x y).
    + apply Permutation_refl.
    + eapply perm_trans; [apply perm_skip, IH|].
      apply perm_swap.
Qed.

Lemma sorted_perm (l : list string) : Permutation (sorted l) l.
Proof.
  induction l as [|x l IH]; simpl.
  - apply perm_nil.
  - eapply perm_trans; [apply insert_sorted_perm|].
    now apply perm_skip.
Qed.

Lemma insert_sorted_ordered (x : string) (l : list string) :
  Sorted str_le l -> Sorted str_le (insert_sorted x l).
Proof.
  induction 1 as [|y l Hl IH Hhd]; simpl.
  - repeat constructor.
  - destruct (String.leb x y) eqn:Hxy.
    + constructor; [now constructor|]. now constructor.
    + constructor; [exact IH|].
      assert (Hyx : str_le y x).
      { destruct (String.leb_total x y) as [H|H]; [congruence|exact H]. }
      destruct l as [|z l]; simpl.
      * now constructor.
      * destruct (String.leb x z); constructor; [exact Hyx|].
        now inversion Hhd.
Qed.

Lemma sorted_ordered (l : list string) : Sorted str_le (sorted l).
Proof.
  induction l as [|x l IH]; simpl.
  - constructor.
  - now apply insert_sorted_ordered.
Qed.

Lemma le_neq_lt (x y : string) : str_le x y -> x <> y -> str_lt x y.
Proof.
  unfold str_le, str_lt, String.leb, String.ltb. intros Hle Hne.
  destruct (String.compare x y) eqn:Hc; try reflexivity; try discriminate.
  apply String.compare_eq_iff in Hc. contradiction.
Qed.

Lemma ordered_nodup_strict (l : list string) :
  Sorted str_le l -> NoDup l -> Sorted str_lt l.
Proof.
  induction 1 as [|x l Hl IH Hhd]; intros Hnd.
  - constructor.
  - inversion Hnd as [|? ? Hx Hnd']; subst.
    constructor; [now apply IH|].
    destruct Hhd as [|y l' Hxy]; constructor.
    apply le_neq_lt; [exact Hxy|].
    intros ->. apply Hx. now left.
Qed.

(** The chunk ids a citation list is due: those present and non-empty,
    in the order of the chunks. *)
Definition cited_chunk_ids (cs : list Chunk) : list string :=
  filter truthy
    (flat_map (fun c => match chunk_id c with Some i => [i] | None => [] end) cs).

Lemma chunk_part_is_cited (cs : list Chunk) :
  flat_map
    (fun chunk =>
       match chunk_id chunk with
       | Some cid => if truthy cid then [cid] else []
       | None => []
       end) cs
  = cited_chunk_ids cs.
Proof.
  unfold cited_chunk_ids.
  induction cs as [|c cs IH]; simpl; [reflexivity|].
  rewrite filter_app, <- IH.
  destruct (chunk_id c) as [i|]; simpl; [|reflexivity].
  now destruct (truthy i).
Qed.

Lemma table_candidates_empty : table_candidates "" = [].
Proof. reflexivity. Qed.

Lemma citations_split (sql : string) (cs : list Chunk) :
  _build_citations sql cs
  = (extract_tables_from_sql sql ++ cited_chunk_ids cs)%list.
Proof. unfold _build_citations. now rewrite chunk_part_is_cited. Qed.

(** C8, at the queries the agent generates.  The text cited for a
    joined table is not the table name: the pattern of
    [extract_tables_from_sql] reads on over the alias and the ON keyword
    up to the first character that is neither a word character nor
    white space.  The ranking query of the question Top 3 products by
    revenue is cited as Order Details and Products p ON p, whatever the
    retrieved chunks, in the function and in the output of a run; the
    filtered sum over four tables is cited with three such texts.  The
    chunk ids follow. *)
Theorem citations_carry_alias_text (cs : list Chunk) :
  (forall a : Agent,
     generate_sql a top_products_question (plan top_products_question [])
     = Ok (top_products_sql 3))
  /\ _build_citations (top_products_sql 3) cs
     = (["Order Details"; "Products p ON p"] ++ cited_chunk_ids cs)%list
  /\ ~ In "Products" (extract_tables_from_sql (top_products_sql 3))
  /\ _build_citations beverages_june_1997_sql cs
     = (["Categories c ON c"; "Order Details"; "Orders o ON o";
         "Products p ON p"] ++ cited_chunk_ids cs)%list
  /\ option_map (fun w => AgentState.citations (state w))
       (final_world
          (run_item (agent_over revenue_store 0) "q1" top_products_question
             "list[{product:str, revenue:float}]"))
     = Some ["Order Details"; "Products p ON p"].
Proof.
  split; [intros a; reflexivity|].
  split; [now rewrite citations_split|].
  split.
  { assert (H : extract_tables_from_sql (top_products_sql 3)
                = ["Order Details"; "Products p ON p"]) by (vm_compute; reflexivity).
    rewrite H. intros [H1|[H1|[]]]; discriminate. }
  split; [now rewrite citations_split|].
  vm_compute. reflexivity.
Qed.

(* ------------------------------------------------------------------ *)
(** ** Answer synthesis *)

Lemma lower_char_idem (c : ascii) : lower_char (lower_char c) = lower_char c.
Proof. destruct c as [[] [] [] [] [] [] [] []]; reflexivity. Qed.

Lemma lower_idem (s : string) : lower (lower s) = lower s.
Proof.
  induction s as [|c s IH]; simpl; [reflexivity|].
  now rewrite lower_char_idem, IH.
Qed.

Lemma dict_set_in (k k' : string) (v v' : value) (d : row) :
  In (k', v') (dict_set k v d) -> (k' = k /\ v' = v) \/ In (k', v') d.
Proof.
  induction d as [|[k0 v0] d IH]; simpl.
  - intros [H|[]]. left. now inversion H.
  - destruct (String.eqb_spec k k0) as [->|Hne]; simpl.
    + intros [H|H]; [left; now inversion H | right; now right].
    + intros [H|H]; [right; now left|].
      destruct (IH H) as [Hl|Hr]; [now left | right; now right].
Qed.

Lemma dict_set_key (k : string) (v : value) (d : row) :
  In k (keys (dict_set k v d)).
Proof.
  unfold keys. induction d as [|[k0 v0] d IH]; simpl; [now left|].
  destruct (String.eqb_spec k k0) as [->|Hne]; simpl; [now left | now right].
Qed.

Lemma dict_set_keeps_keys (k k' : string) (v : value) (d : row) :
  In k' (keys d) -> In k' (keys (dict_set k v d)).
Proof.
  unfold keys. induction d as [|[k0 v0] d IH]; simpl; [intros []|].
  destruct (String.eqb_spec k k0) as [->|Hne]; simpl.
  - intros [H|H]; [now left | now right].
  - intros [H|H]; [now left | right; now apply IH].
Qed.

Section FormattedRows.

Variable float_of_text : string -> option pyfloat.

Let put (formatted : row) (kv : string * value) : row :=
  dict_set (lower (fst kv)) (format_value float_of_text (snd kv)) formatted.

Lemma format_fold_in (r acc : row) (k : string) (v : value) :
  In (k, v) (fold_left put r acc) ->
  In (k, v) acc
  \/ exists c v0, In (c, v0) r /\ k = lower c
                  /\ v = format_value float_of_text v0.
Proof.
  revert acc. induction r as [|[c v0] r IH]; intros acc; simpl.
  - now left.
  - intros H. destruct (IH _ H) as [Hacc | (c' & v' & Hin & Hk & Hv)].
    + unfold put in Hacc. simpl in Hacc.
      apply dict_set_in in Hacc. destruct Hacc as [[-> ->]|Hacc].
      * right. exists c, v0. auto.
      * now left.
    + right. exists c', v'. auto.
Qed.

Lemma format_fold_keeps (r acc : row) (k : string) :
  In k (keys acc) -> In k (keys (fold_left put r acc)).
Proof.
  revert acc. induction r as [|[c v0] r IH]; intros acc; simpl; [auto|].
  intros H. apply IH. unfold put. simpl. now apply dict_set_keeps_keys.
Qed.

Lemma format_fold_covers (r acc : row) (c : string) (v0 : value) :
  In (c, v0) r -> In (lower c) (keys (fold_left put r acc)).
Proof.
  revert acc. induction r as [|[c' v'] r IH]; intros acc; simpl; [intros []|].
  intros [H|H].
  - inversion H; subst. apply format_fold_keeps. unfold put. simpl.
    apply dict_set_key.
  - now apply IH.
Qed.

Lemma format_row_in (r : row) (k : string) (v : value) :
  In (k, v) (format_row float_of_text r) ->
  lower k = k
  /\ exists c v0, In (c, v0) r /\ k = lower c
                  /\ v = format_value float_of_text v0.
Proof.
  intros H. apply format_fold_in in H.
  destruct H as [[]|(c & v0 & Hin & -> & ->)].
  split; [apply lower_idem|]. exists c, v0. auto.
Qed.

Lemma format_row_covers (r : row) (c : string) (v0 : value) :
  In (c, v0) r -> In (lower c) (keys (format_row float_of_text r)).
Proof. apply format_fold_covers. Qed.

End FormattedRows.

(** A confidence as the output carries it: the reduced fraction. *)
Definition confidence_of (q : Q) : pyfloat := FFin (Qred q).

Lemma conf_round (q : Q) :
  In q [0.9; 0.5; 0.85; 0.4]%Q -> py_round (conf q) 2 = confidence_of q.
Proof.
  simpl. intros [<-|[<-|[<-|[<-|[]]]]]; reflexivity.
Qed.

(** C6.  For a format hint that parses as a list, the answer is the
    list of the formatted result rows: one element per row, in the
    order of the rows; every key of an element is the lower-cased name
    of a column of its row and every column is there under its
    lower-cased name; a float cell is rounded to 2 decimals, an integer
    cell is kept; and the confidence is 0.9 for a non-empty list, 0.5
    for an empty one. *)
Theorem list_answer_shape
  (float_of_text : string -> option pyfloat) (int_of_text : string -> option Z)
  (item_id question format_hint route sql : string) (sql_res : SqlResult)
  (cs : list Chunk) (constraints : Constraints) (inner : FormatHint) :
  parse_format_hint format_hint = HList inner ->
  exists out elems,
    synthesize float_of_text int_of_text item_id question format_hint route
               sql sql_res cs constraints = Ok out
    /\ Output.final_answer out = AList elems
    /\ List.length elems = List.length (rows sql_res)
    /\ (forall i r, nth_error (rows sql_res) i = Some r ->
                    nth_error elems i = Some (format_row float_of_text r))
    /\ (forall i r e k v,
           nth_error (rows sql_res) i = Some r -> nth_error elems i = Some e ->
           In (k, v) e ->
           lower k = k
           /\ exists c v0, In (c, v0) r /\ k = lower c
                           /\ v = format_value float_of_text v0)
    /\ (forall i r e c v0,
           nth_error (rows sql_res) i = Some r -> nth_error elems i = Some e ->
           In (c, v0) r -> In (lower c) (keys e))
    /\ (forall f, format_value float_of_text (VFloat f) = VFloat (py_round f 2))
    /\ (forall z, format_value float_of_text (VInt z) = VInt z)
    /\ Output.confidence out
       = match rows sql_res with
         | [] => confidence_of 0.5
         | _ => confidence_of 0.9
         end.
Proof.
  intros Hhint.
  eexists. exists (map (format_row float_of_text) (rows sql_res)).
  split.
  { unfold synthesize. rewrite Hhint. simpl. reflexivity. }
  simpl.
  split; [reflexivity|].
  split; [apply length_map|].
  assert (Hnth : forall i r, nth_error (rows sql_res) i = Some r ->
            nth_error (map (format_row float_of_text) (rows sql_res)) i
            = Some (format_row float_of_text r)).
  { intros i r H. rewrite nth_error_map, H. reflexivity. }
  split; [exact Hnth|].
  split.
  { intros i r e k v Hr He Hin. rewrite (Hnth _ _ Hr) in He.
    inversion He; subst. now apply format_row_in. }
  split.
  { intros i r e c v0 Hr He Hin. rewrite (Hnth _ _ Hr) in He.
    inversion He; subst. eapply format_row_covers; eauto. }
  split; [reflexivity|].
  split; [reflexivity|].
  destruct (rows sql_res); reflexivity.
Qed.

Lemma list_answer_shape_witness :
  parse_format_hint "list[{product:str, revenue:float}]"
  = HList (HObject [("product", "str"); ("revenue", "float")])
  /\ exists out,
       synthesize no_float_text no_int_text "q1" "Top 3 products by revenue"
         "list[{product:str, revenue:float}]" "hybrid" "" revenue_result []
         no_constraints = Ok out
       /\ Output.final_answer out
          = AList [[("product", VStr "Chai"); ("revenue", VFloat (FFin (Qred 12.35)))]].
Proof.
  split; [reflexivity|].
  destruct (list_answer_shape no_float_text no_int_text "q1"
              "Top 3 products by revenue" "list[{product:str, revenue:float}]"
              "hybrid" "" revenue_result [] no_constraints
              (HObject [("product", "str"); ("revenue", "float")])
              eq_refl)
    as (out & elems & Hrun & Hans & _).
  exists out. split; [exact Hrun|].
  vm_compute in Hrun. inversion Hrun. reflexivity.
Defined.

Lemma py_round_two_decimals (q : Q) :
  exists n : Z, py_round (FFin q) 2 = FFin (Qred (n # 100)).
Proof. eexists. reflexivity. Qed.

Lemma py_round_finite (f : pyfloat) (ndigits : Z) :
  is_finite (py_round f ndigits) = is_finite f.
Proof.
  destruct f; simpl; try reflexivity.
  now destruct (0 <=? ndigits).
Qed.

(** C5, as the code has it.  For a format hint that parses as float:
    without rows the answer is 0.0 and the confidence 0.5.  With a
    first row the answer is [safe_round_float] of its first cell: when
    the cell converts to a float, that float rounded to 2 decimals,
    which for a finite float is a finite multiple of 1/100; when the
    conversion raises, as it does for NULL, the answer is NaN.  The
    confidence is then 0.9 if the result reports success and 0.5 if
    not, whatever the answer. *)
Theorem float_answer_shape
  (float_of_text : string -> option pyfloat) (int_of_text : string -> option Z)
  (item_id question format_hint route sql : string) (sql_res : SqlResult)
  (cs : list Chunk) (constraints : Constraints) :
  parse_format_hint format_hint = HFloat ->
  (rows sql_res = [] ->
   exists out,
     synthesize float_of_text int_of_text item_id question format_hint route
                sql sql_res cs constraints = Ok out
     /\ Output.final_answer out = AValue (VFloat (FFin 0))
     /\ Output.confidence out = confidence_of 0.5)
  /\ (forall col v r0 more,
        rows sql_res = ((col, v) :: r0) :: more ->
        exists out,
          synthesize float_of_text int_of_text item_id question format_hint route
                     sql sql_res cs constraints = Ok out
          /\ Output.final_answer out
             = AValue (VFloat (safe_round_float float_of_text v 2))
          /\ Output.confidence out
             = (if success sql_res then confidence_of 0.9 else confidence_of 0.5)
          /\ (forall f, py_float float_of_text v = Ok f ->
                Output.final_answer out = AValue (VFloat (py_round f 2)))
          /\ (forall q, py_float float_of_text v = Ok (FFin q) ->
                exists n : Z,
                  Output.final_answer out = AValue (VFloat (FFin (Qred (n # 100)))))
          /\ (raises (py_float float_of_text v) ->
                Output.final_answer out = AValue (VFloat FNan))
          /\ (v = VNone -> Output.final_answer out = AValue (VFloat FNan))).
Proof.
  intros Hhint. split.
  - intros Hrows. eexists. split.
    { unfold synthesize. rewrite Hhint, Hrows. simpl.
      rewrite Bool.andb_false_r. reflexivity. }
    simpl. split; reflexivity.
  - intros col v r0 more Hrows. eexists. split.
    { unfold synthesize. rewrite Hhint, Hrows. simpl.
      rewrite Bool.andb_true_r. reflexivity. }
    simpl. split; [reflexivity|].
    split; [now destruct (success sql_res)|].
    split.
    { intros f Hf. unfold safe_round_float. now rewrite Hf. }
    split.
    { intros q Hq. unfold safe_round_float. rewrite Hq.
      destruct (py_round_two_decimals q) as [n Hn]. exists n. now rewrite Hn. }
    split.
    { intros [e He]. unfold safe_round_float. now rewrite He. }
    intros ->. reflexivity.
Qed.

Lemma float_answer_shape_witness :
  parse_format_hint "float" = HFloat
  /\ exists out,
       synthesize no_float_text no_int_text "q1" the_question "float" "hybrid"
         "" null_sum_result [] no_constraints = Ok out
       /\ Output.final_answer out = AValue (VFloat FNan)
       /\ Output.confidence out = confidence_of 0.9.
Proof.
  split; [reflexivity|].
  destruct (float_answer_shape no_float_text no_int_text "q1" the_question
              "float" "hybrid" "" null_sum_result [] no_constraints eq_refl)
    as [_ Hrow].
  destruct (Hrow "revenue" VNone [] [] eq_refl)
    as (out & Hrun & _ & Hconf & _ & _ & _ & Hnull).
  exists out. split; [exact Hrun|]. split; [now apply Hnull | exact Hconf].
Defined.

(** C5 fails as stated: a successful result whose first cell is NULL
    gives an answer that is not a finite number, at confidence 0.9. *)
Lemma float_answer_of_null_is_nan :
  parse_format_hint "float" = HFloat
  /\ success null_sum_result = true
  /\ List.length (rows null_sum_result) = 1%nat
  /\ exists out,
       synthesize no_float_text no_int_text "q1" the_question "float" "hybrid"
         "" null_sum_result [] no_constraints = Ok out
       /\ Output.final_answer out = AValue (VFloat FNan)
       /\ is_finite FNan = false.
Proof.
  repeat split. eexists. repeat split.
Qed.

(* ------------------------------------------------------------------ *)
(** ** Planning and query synthesis *)

Lemma shift_date_without_offset (a : Agent) (date_str : string) :
  year_offset a = 0 -> _shift_date a date_str = Ok date_str.
Proof. intros H. unfold _shift_date. now rewrite H. Qed.

Lemma sql_date_range_without_offset (a : Agent) (c : Constraints) :
  year_offset a = 0 -> _get_sql_date_range a c = Ok (date_range c).
Proof.
  intros H. unfold _get_sql_date_range.
  destruct (date_range c) as [[s e]|]; [|reflexivity].
  simpl. now rewrite !shift_date_without_offset.
Qed.

Lemma sql_date_range_without_range (a : Agent) (c : Constraints) :
  date_range c = None -> _get_sql_date_range a c = Ok None.
Proof. intros H. unfold _get_sql_date_range. now rewrite H. Qed.

(** Shifting a date of June by a year offset that stays in the calendar. *)
Lemma shift_june_date (a : Agent) (d : Z) (text : string) :
  strptime_ymd text = Ok (MkDate 1997 6 d) ->
  1 <= d <= 30 ->
  year_offset a <> 0 ->
  1 <= 1997 + year_offset a <= 9999 ->
  _shift_date a text
  = Ok (strftime_ymd (MkDate (1997 + year_offset a) 6 d)).
Proof.
  intros Hparse Hd Hoff Hy. unfold _shift_date.
  destruct (Z.eqb_spec (year_offset a) 0) as [H0|_]; [contradiction|].
  rewrite Hparse. cbn [bind year month day].
  remember (1997 + year_offset a) as y eqn:Ey.
  unfold replace_year, make_date. cbn [year month day].
  assert (Hdim : days_in_month y 6 = 30) by reflexivity.
  rewrite Hdim.
  replace (1 <=? y) with true by (symmetry; apply Z.leb_le; lia).
  replace (y <=? 9999) with true by (symmetry; apply Z.leb_le; lia).
  replace (1 <=? d) with true by (symmetry; apply Z.leb_le; lia).
  replace (d <=? 30) with true by (symmetry; apply Z.leb_le; lia).
  reflexivity.
Qed.

Lemma append_assoc (s t u : string) : (s ++ t) ++ u = s ++ (t ++ u).
Proof. induction s; simpl; congruence. Qed.

Lemma rstrip_all (p : ascii -> bool) (s : string) :
  all_chars p s = true -> rstrip_by p s = "".
Proof.
  induction s as [|c s IH]; simpl; [reflexivity|].
  intros H. apply Bool.andb_true_iff in H. destruct H as [Hc Hs].
  rewrite IH by assumption. now rewrite Hc.
Qed.

Lemma rstrip_after (p : ascii -> bool) (s ws : string) (c : ascii) :
  p c = false -> all_chars p ws = true ->
  rstrip_by p (s ++ String c ws) = s ++ String c "".
Proof.
  intros Hc Hws. induction s as [|a s IH]; simpl.
  - rewrite rstrip_all by assumption. now rewrite Hc.
  - rewrite IH. destruct s; reflexivity.
Qed.

Lemma lstrip_before (p : ascii -> bool) (ws s : string) (c : ascii) :
  p c = false -> all_chars p ws = true ->
  lstrip_by p (ws ++ String c s) = String c s.
Proof.
  intros Hc. induction ws as [|a ws IH]; simpl.
  - now rewrite Hc.
  - intros H. apply Bool.andb_true_iff in H. destruct H as [Ha Hws].
    rewrite Ha. now apply IH.
Qed.

(** Stripping a text framed by blanks gives the text. *)
Lemma strip_framed (lead body tail : string) (c d : ascii) :
  all_chars is_space lead = true -> all_chars is_space tail = true ->
  is_space c = false -> is_space d = false ->
  strip (lead ++ String d (body ++ String c tail)) = String d (body ++ String c "").
Proof.
  intros Hl Ht Hc Hd. unfold strip, strip_by.
  rewrite lstrip_before by assumption.
  change (String d (body ++ String c tail)) with (String d body ++ String c tail).
  now rewrite rstrip_after by assumption.
Qed.

(** The text of the filtered-sum template, for any filter. *)
Lemma category_revenue_sql_text (w : string) :
  category_revenue_sql categories_join w = filtered_sum_sql w.
Proof.
  set (pre :=
    "ELECT SUM(od.UnitPrice * od.Quantity * (1 - od.Discount)) AS revenue"
    ++ nl ++ indent16 ++ "FROM " ++ dq ++ "Order Details" ++ dq ++ " od"
    ++ nl ++ indent16 ++ "JOIN Orders o ON o.OrderID = od.OrderID"
    ++ nl ++ indent16 ++ "JOIN Products p ON p.ProductID = od.ProductID"
    ++ nl ++ indent16 ++ "JOIN Categories c ON c.CategoryID = p.CategoryID"
    ++ nl ++ indent16).
  transitivity (strip ((nl ++ indent16)
                       ++ String "S"%char
                            ((pre ++ w) ++ String ";"%char (nl ++ indent12)))).
  - unfold category_revenue_sql, template. f_equal.
    cbn [map String.concat]. subst pre. rewrite !append_assoc. reflexivity.
  - rewrite strip_framed by reflexivity.
    unfold filtered_sum_sql. subst pre. rewrite !append_assoc. reflexivity.
Qed.

Lemma question_has_no_date_range : extract_first_date_range the_question = None.
Proof. reflexivity. Qed.

Lemma plan_of_the_question (cs : list Chunk) :
  plan the_question cs
  = {| date_range :=
         match first_some extract_first_date_range (map get_content cs) with
         | Some (s, e) => Some (MkDateRange s e)
         | None => None
         end;
       category := Some "Beverages";
       kpi := Some "revenue" |}.
Proof.
  unfold plan, extract_date_range, extract_category.
  assert (Hcat : find (fun cat => contains (lower cat) (lower the_question))
                   KNOWN_CATEGORIES = Some "Beverages") by reflexivity.
  rewrite Hcat.
  assert (Hkpi : plan_kpi (lower the_question) = Some "revenue") by reflexivity.
  rewrite Hkpi.
  cbn [first_some]. rewrite question_has_no_date_range.
  reflexivity.
Qed.

Lemma generate_sql_of_the_question (a : Agent) (dr : option DateRange)
  (shifted : option DateRange) :
  _get_sql_date_range a (MkConstraints dr (Some "Beverages") (Some "revenue"))
  = Ok shifted ->
  generate_sql a the_question
    (MkConstraints dr (Some "Beverages") (Some "revenue"))
  = Ok (filtered_sum_sql
          match shifted with
          | Some d => "WHERE c.CategoryName = 'Beverages' AND " ++ between_clause d
          | None => "WHERE c.CategoryName = 'Beverages'"
          end).
Proof.
  intros Hdr. rewrite <- category_revenue_sql_text.
  unfold generate_sql, _build_filters. rewrite Hdr.
  destruct shifted as [d|]; reflexivity.
Qed.

(** C7, as the code has it.  For the question Total revenue from
    Beverages in June 1997 and any retrieved chunks, the planner
    extracts the category Beverages and the KPI revenue.  It reads no
    date range off the question: the range is the first one found in
    the retrieved chunk texts, so it is 1997-06-01 to 1997-06-30 when
    that is what the chunks give first, and absent when they give none.
    The synthesizer emits the filtered-sum query over order lines,
    orders, products and categories with the equality filter on the
    category name, and the date-between filter over the range moved by
    the year offset of the agent when a range was extracted.  The route
    is hybrid, unless the predictor answers sql, which is kept. *)
Theorem beverages_june_scenario (a : Agent) (cs : list Chunk) :
  let c := plan the_question cs in
  let from_chunks := first_some extract_first_date_range (map get_content cs) in
  category c = Some "Beverages"
  /\ kpi c = Some "revenue"
  /\ (from_chunks = None ->
      date_range c = None
      /\ generate_sql a the_question c = Ok beverages_unfiltered_by_date_sql)
  /\ (from_chunks = Some ("1997-06-01", "1997-06-30") ->
      date_range c = Some (MkDateRange "1997-06-01" "1997-06-30")
      /\ (year_offset a = 0 ->
          generate_sql a the_question c = Ok beverages_june_1997_sql)
      /\ (year_offset a <> 0 -> 1 <= 1997 + year_offset a <= 9999 ->
          generate_sql a the_question c
          = Ok (filtered_sum_sql
                  ("WHERE c.CategoryName = 'Beverages' AND "
                   ++ between_clause
                        (MkDateRange
                           (strftime_ymd (MkDate (1997 + year_offset a) 6 1))
                           (strftime_ymd (MkDate (1997 + year_offset a) 6 30)))))))
  /\ _fallback_route the_question = "hybrid"
  /\ (route a the_question = "hybrid"
      \/ (route a the_question = "sql"
          /\ exists label, router_module a the_question = Ok (Some label)
                           /\ lower (strip label) = "sql")).
Proof.
  intros c from_chunks. subst c. rewrite plan_of_the_question.
  fold from_chunks. cbn [category kpi date_range].
  split; [reflexivity|]. split; [reflexivity|].
  split.
  { intros Hnone. rewrite Hnone. split; [reflexivity|].
    now rewrite (generate_sql_of_the_question a None None). }
  split.
  { intros Hsome. rewrite Hsome. split; [reflexivity|]. split.
    - intros H0.
      rewrite (generate_sql_of_the_question a _
                 (Some (MkDateRange "1997-06-01" "1997-06-30"))).
      + reflexivity.
      + now rewrite sql_date_range_without_offset.
    - intros Hoff Hy.
      rewrite (generate_sql_of_the_question a _
                 (Some (MkDateRange
                    (strftime_ymd (MkDate (1997 + year_offset a) 6 1))
                    (strftime_ymd (MkDate (1997 + year_offset a) 6 30))))).
      + reflexivity.
      + unfold _get_sql_date_range. cbn [date_range dr_start dr_end].
        rewrite (shift_june_date a 1); [|reflexivity|lia|exact Hoff|exact Hy].
        rewrite (shift_june_date a 30); [|reflexivity|lia|exact Hoff|exact Hy].
        reflexivity. }
  split; [reflexivity|].
  apply route_after_sql_signal. reflexivity.
Qed.

Lemma beverages_june_scenario_witness :
  date_range (plan the_question [calendar_chunk])
  = Some (MkDateRange "1997-06-01" "1997-06-30")
  /\ generate_sql (agent_predicting (Some "hybrid") 0) the_question
       (plan the_question [calendar_chunk]) = Ok beverages_june_1997_sql.
Proof.
  destruct (beverages_june_scenario (agent_predicting (Some "hybrid") 0)
              [calendar_chunk])
    as (_ & _ & _ & Hjune & _).
  destruct (Hjune eq_refl) as (Hrange & Hsql & _).
  split; [exact Hrange | exact (Hsql eq_refl)].
Defined.

(** C7 fails as stated: with no retrieved chunk the planner extracts no
    date range and the query has no date filter; and the predictor's
    label sql is kept as the route. *)
Lemma june_is_not_read_off_the_question :
  date_range (plan the_question []) = None
  /\ generate_sql (agent_predicting (Some "hybrid") 0) the_question
       (plan the_question []) = Ok beverages_unfiltered_by_date_sql
  /\ route (agent_predicting (Some "sql") 0) the_question = "sql".
Proof. repeat split. Qed.

(* ------------------------------------------------------------------ *)
(** ** Exceptions at the node boundary *)

(** C3, at the failing inputs.  A node can raise.  With a year offset
    of 1 the query synthesis node raises [ValueError] on a question
    that names a leap day, and with any offset but 0 on one that names
    a day the month does not have; the answer synthesis node raises
    [TypeError] on an int hint when the first cell of the result is
    NULL.  No trace line is written for such an item. *)
Theorem nodes_raise_on_dates_and_null_cells :
  path_and_exception
    (run_item (agent_over failing_store 1) "q1" leap_day_question "float")
  = Some ([Router; RetrieverNode; Planner; Schema; Nl2sql], Some ValueError)
  /\ path_and_exception
       (run_item (agent_over failing_store 16) "q2" june_31_question "float")
     = Some ([Router; RetrieverNode; Planner; Schema; Nl2sql], Some ValueError)
  /\ path_and_exception
       (run_item (agent_over null_sum_store 0) "q3" the_question "int")
     = Some ([Router; RetrieverNode; Planner; Schema; Nl2sql; Executor;
              Validator; Synthesizer], Some TypeError)
  /\ _shift_date (agent_over failing_store 1) "1996-02-29" = Raise ValueError
  /\ py_int no_int_text VNone = Raise TypeError
  /\ option_map trace_file
       (final_world (run_item (agent_over null_sum_store 0) "q3" the_question "int"))
     = Some [].
Proof. repeat split; vm_compute; reflexivity. Qed.

(* ------------------------------------------------------------------ *)
(** ** The repair node *)











(* ------------------------------------------------------------------ *)
(** ** Textual repair inside the execute step *)

Lemma execute_sql_failed_repair (a : Agent) (log : list string)
  (sql : string) (attempt : Z) :
  truthy (strip sql) = true ->
  success (sqlite_execute a log sql) = false ->
  attempt < max_repairs a ->
  _repair_sql sql <> sql ->
  success (sqlite_execute a (log ++ [sql])%list (_repair_sql sql)) = false ->
  execute_sql a log sql attempt
  = ((_repair_sql sql, sqlite_execute a (log ++ [sql])%list (_repair_sql sql)),
     ((log ++ [sql]) ++ [_repair_sql sql])%list).
Proof.
  intros Hsql Hfail Hatt Hdiff Hfail2. unfold execute_sql.
  rewrite Hsql, Hfail. simpl.
  destruct (Z.leb_spec (max_repairs a) attempt) as [Hle|_]; [lia|].
  destruct (String.eqb_spec (_repair_sql sql) sql) as [He|_]; [contradiction|].
  now rewrite Hfail2.
Qed.

Lemma execute_sql_calls (a : Agent) (log : list string) (sql : string) (attempt : Z) :
  (List.length (snd (execute_sql a log sql attempt))
   <= List.length log + (if (max_repairs a <=? attempt)%Z then 1 else 2))%nat.
Proof.
  unfold execute_sql.
  destruct (truthy (strip sql)); simpl; [|destruct (max_repairs a <=? attempt); lia].
  destruct (success (sqlite_execute a log sql)); simpl.
  { rewrite length_app. simpl. destruct (max_repairs a <=? attempt); lia. }
  destruct (max_repairs a <=? attempt); simpl.
  { rewrite length_app. simpl. lia. }
  destruct (String.eqb (_repair_sql sql) sql); simpl.
  { rewrite length_app. simpl. lia. }
  destruct (success _); simpl; rewrite !length_app; simpl; lia.
Qed.

(* ------------------------------------------------------------------ *)
(** ** Runs of the graph *)

Lemma synthesize_passes_through
  (float_of_text : string -> option pyfloat) (int_of_text : string -> option Z)
  (item_id question format_hint route sql : string) (sql_res : SqlResult)
  (cs : list Chunk) (constraints : Constraints) (out : Output.t) :
  synthesize float_of_text int_of_text item_id question format_hint route
             sql sql_res cs constraints = Ok out ->
  Output.id out = item_id
  /\ Output.sql out = sql
  /\ Output.citations out = _build_citations sql cs.
Proof.
  unfold synthesize. intros H.
  assert (Hfin : forall (ans : answer) (c : pyfloat) (e : string),
            Ok (Output.Mk item_id ans sql c e (_build_citations sql cs)) = Ok out ->
            Output.id out = item_id
            /\ Output.sql out = sql
            /\ Output.citations out = _build_citations sql cs).
  { intros ans c e Heq. inversion Heq; subst out. repeat split. }
  destruct (parse_format_hint format_hint).
  - destruct (extract_policy_number question cs) as [n|].
    + cbn [bind] in H. now apply Hfin in H.
    + destruct (rows sql_res) as [|r0 more].
      * cbn [bind] in H. now apply Hfin in H.
      * destruct (first_value r0) as [v|]; [|discriminate].
        cbn [bind] in H.
        destruct (py_int int_of_text v); [|discriminate].
        cbn [bind] in H. now apply Hfin in H.
  - destruct (rows sql_res) as [|r0 more].
    + cbn [bind] in H. now apply Hfin in H.
    + destruct (first_value r0) as [v|]; [|discriminate].
      cbn [bind] in H. now apply Hfin in H.
  - cbn [bind] in H. now apply Hfin in H.
  - cbn [bind] in H. now apply Hfin in H.
  - cbn [bind] in H. now apply Hfin in H.
  - cbn [bind] in H. now apply Hfin in H.
Qed.

(** The validator never raises; it asks for a repair when the budget
    lasts and the state gives a reason. *)
Lemma node_validator_returns (w : World) :
  exists (err : option string) (outcome : string),
    node_validator w
    = Ok (on_state
            (AgentState.with_validation
               ((AgentState.repairs (state w) <? AgentState.max_repairs (state w))
                && repair_wanted (AgentState.sql (state w))
                     (AgentState.sql_res (state w)))%bool
               err outcome) w).
Proof.
  unfold node_validator, repair_wanted.
  destruct (truthy (AgentState.sql (state w)));
  destruct (success (AgentState.sql_res (state w)));
  destruct (rows (AgentState.sql_res (state w)));
  destruct (AgentState.repairs (state w) <? AgentState.max_repairs (state w));
  cbn [negb orb andb]; eexists; eexists; reflexivity.
Qed.

Section Counter.

Variable float_of_text : string -> option pyfloat.
Variable int_of_text : string -> option Z.
Variable a : Agent.

Lemma only_repair_increments (n : node) (w w' : World) (n' : option node) :
  step float_of_text int_of_text a n w = Ok (n', w') ->
  AgentState.repairs (state w')
  = AgentState.repairs (state w) + (if node_eqb Repair n then 1 else 0).
Proof.
  intros Hstep. unfold step in Hstep.
  destruct n; cbn [run_node node_eqb] in *.
  - unfold node_router in Hstep. simp_state. inversion Hstep. cbn. lia.
  - unfold node_retriever in Hstep.
    destruct (retrieve a _ _); [|discriminate].
    simp_state. inversion Hstep. cbn. lia.
  - unfold node_planner in Hstep. simp_state.
    match type of Hstep with
    | context [String.eqb ?x "rag"] => destruct (String.eqb x "rag")
    end; inversion Hstep; cbn; lia.
  - unfold node_schema in Hstep. simp_state. inversion Hstep. cbn. lia.
  - unfold node_nl2sql in Hstep.
    destruct (generate_sql a _ _); [|discriminate].
    simp_state. inversion Hstep. cbn. lia.
  - unfold node_executor in Hstep.
    destruct (execute_sql a _ _ _) as [[es sr] lg].
    simp_state. inversion Hstep. cbn. lia.
  - unfold node_validator in Hstep.
    destruct (truthy (AgentState.sql (state w)));
    destruct (success (AgentState.sql_res (state w)));
    destruct (rows (AgentState.sql_res (state w)));
    destruct (AgentState.repairs (state w) <? AgentState.max_repairs (state w));
    cbn [negb] in Hstep; simp_state; inversion Hstep; cbn; lia.
  - unfold node_repair in Hstep.
    destruct (generate_sql a _ _); [|discriminate].
    simp_state. inversion Hstep. cbn. lia.
  - unfold node_synthesizer in Hstep.
    destruct (synthesize _ _ _ _ _ _ _ _ _ _); [|discriminate].
    simp_state. inversion Hstep. cbn. lia.
  - unfold node_trace in Hstep. simp_state. inversion Hstep. cbn. lia.
Qed.

(** Whatever the validator writes, the edge behind it leads to the
    answer synthesis. *)
Lemma validator_hands_over_to_synthesizer (w w' : World) (n' : option node) :
  step float_of_text int_of_text a Validator w = Ok (n', w') ->
  n' = Some Synthesizer
  /\ (AgentState.needs_repair (state w') = true ->
      AgentState.repairs (state w) < AgentState.max_repairs (state w)).
Proof.
  intros Hstep. unfold step in Hstep. cbn [run_node] in Hstep.
  destruct (node_validator_returns w) as (err & outcome & Hv).
  rewrite Hv in Hstep. simp_run_in Hstep.
  change (String.eqb "synthesize" "repair") with false in Hstep.
  change (String.eqb "synthesize" "synthesize") with true in Hstep.
  cbv iota in Hstep. injection Hstep as <- <-. simp_run.
  split; [reflexivity|].
  intros H. apply andb_prop in H. now apply Z.ltb_lt.
Qed.

End Counter.

(** The run of an item whose route is a structured one and whose query
    is generated: one pass from the router to the answer synthesis,
    with the execute step entered once. *)
Lemma structured_run
  (float_of_text : string -> option pyfloat) (int_of_text : string -> option Z)
  (a : Agent) (item_id question format_hint sql : string) (cs : list Chunk)
  (fuel : nat) :
  mem (route a question) ["sql"; "hybrid"] = true ->
  search (retriever a) question 10 = Ok cs ->
  generate_sql a question (plan question cs) = Ok sql ->
  (9 <= fuel)%nat ->
  exists w visited r,
    invoke float_of_text int_of_text a fuel
      (AgentState.new item_id question format_hint)
    = Some (w, [Router; RetrieverNode; Planner; Schema; Nl2sql; Executor;
                Validator; Synthesizer] ++ visited, r)%list
    /\ ((visited = [Trace] /\ r = None
         /\ exists e, trace_file w = [e]
                      /\ TraceEntry.sql e = AgentState.sql (state w)
                      /\ TraceEntry.sql_success e
                         = success (AgentState.sql_res (state w))
                      /\ TraceEntry.repairs e = 0
                      /\ TraceEntry.needs_repair e
                         = AgentState.needs_repair (state w))
        \/ (visited = [] /\ r <> None /\ trace_file w = []))
    /\ store_log w = snd (execute_sql a [] sql 0)
    /\ AgentState.repairs (state w) = 0
    /\ AgentState.constraints (state w) = plan question cs
    /\ AgentState.sql (state w) = fst (fst (execute_sql a [] sql 0))
    /\ AgentState.sql_res (state w) = snd (fst (execute_sql a [] sql 0))
    /\ AgentState.needs_repair (state w)
       = repair_wanted (fst (fst (execute_sql a [] sql 0)))
           (snd (fst (execute_sql a [] sql 0))).
Proof.
  intros Hroute Hsearch Hgen Hfuel.
  do 9 (destruct fuel as [|fuel]; [lia|]). clear Hfuel.
  destruct (execute_sql a [] sql 0) as [[es sr] lg] eqn:Hexec. cbn [fst snd].
  unfold invoke. cbn [run].
  unfold step at 1. simp_run. unfold node_router. simp_run.
  unfold step at 1. simp_run. unfold node_retriever, retrieve. simp_run.
  rewrite Hsearch. simp_run.
  unfold step at 1. simp_run. unfold node_planner, planner_branch. simp_run.
  rewrite Hroute. change (String.eqb "sql" "rag") with false. cbv iota. simp_run.
  unfold step at 1. simp_run. unfold node_schema. simp_run.
  unfold step at 1. simp_run. unfold node_nl2sql. simp_run.
  rewrite Hgen. simp_run.
  unfold step at 1. simp_run. unfold node_executor. simp_run.
  rewrite Hexec. simp_run.
  unfold step at 1. simp_run.
  match goal with
  | |- context [node_validator ?w] =>
      destruct (node_validator_returns w) as (err & outcome & Hv); rewrite Hv
  end.
  simp_run.
  change (String.eqb "synthesize" "repair") with false. cbv iota.
  change (String.eqb "synthesize" "synthesize") with true. cbv iota. simp_run.
  unfold step at 1. simp_run. unfold node_synthesizer. simp_run.
  match goal with
  | |- context [synthesize ?f ?i ?id ?q ?h ?rt ?s ?res ?c ?k] =>
      destruct (synthesize f i id q h rt s res c k) as [out|e] eqn:Hsyn
  end.
  - simp_run. unfold step at 1. simp_run. unfold node_trace. simp_run.
    destruct (synthesize_passes_through _ _ _ _ _ _ _ _ _ _ _ Hsyn)
      as (_ & Hs & _).
    eexists. exists [Trace]. exists None.
    split; [reflexivity|]. simp_run. rewrite Hs.
    split.
    { left. split; [reflexivity|]. split; [reflexivity|].
      eexists. split; [reflexivity|]. repeat split. }
    repeat split; reflexivity.
  - simp_run. eexists. exists []. exists (Some e).
    split; [reflexivity|]. simp_run.
    split; [right; split; [reflexivity|split; [discriminate|reflexivity]]|].
    repeat split; reflexivity.
Qed.

Lemma prefix_of_path (n : node) (visited rest path : list node) :
  (visited ++ rest)%list = path ->
  (In n visited -> In n path)
  /\ (count_node n visited <= count_node n path)%nat
  /\ (List.length visited <= List.length path)%nat.
Proof.
  intros <-. split; [|split].
  - intros H. apply in_or_app. now left.
  - unfold count_node. rewrite filter_app, length_app. lia.
  - rewrite length_app. lia.
Qed.

(** Every run from the router, on any state: it ends within nine
    steps, on one of the two ways through the graph or on a beginning
    of one of them when a node raises; the execute step sends one or
    two queries; the repair counter is the one the run began with. *)
Lemma run_is_a_straight_line
  (float_of_text : string -> option pyfloat) (int_of_text : string -> option Z)
  (a : Agent) (st0 : AgentState.t) (fuel : nat) :
  (9 <= fuel)%nat ->
  exists w visited r,
    invoke float_of_text int_of_text a fuel st0 = Some (w, visited, r)
    /\ (exists rest, (visited ++ rest)%list = sql_path
                     \/ (visited ++ rest)%list = rag_path)
    /\ (List.length (store_log w)
        <= if (max_repairs a <=? AgentState.repairs st0)%Z then 1 else 2)%nat
    /\ AgentState.repairs (state w) = AgentState.repairs st0
    /\ AgentState.max_repairs (state w) = AgentState.max_repairs st0
    /\ Forall (fun e => TraceEntry.repairs e = AgentState.repairs st0
                        /\ TraceEntry.constraints e
                           = AgentState.constraints (state w)
                        /\ TraceEntry.needs_repair e
                           = AgentState.needs_repair (state w))
         (trace_file w)
    /\ (In Planner visited ->
        exists cs,
          search (retriever a) (AgentState.question st0) 10 = Ok cs
          /\ AgentState.constraints (state w)
             = plan (AgentState.question st0) cs).
Proof.
  intros Hfuel.
  do 9 (destruct fuel as [|fuel]; [lia|]). clear Hfuel.
  assert (Hbound : forall k : nat,
            (k <= 1)%nat ->
            (k <= if (max_repairs a <=? AgentState.repairs st0)%Z then 1 else 2)%nat).
  { intros k Hk. destruct (max_repairs a <=? AgentState.repairs st0)%Z; lia. }
  unfold invoke. cbn [run].
  unfold step at 1. simp_run. unfold node_router. simp_run.
  unfold step at 1. simp_run. unfold node_retriever, retrieve. simp_run.
  destruct (search (retriever a) (AgentState.question st0) 10) as [cs|e0] eqn:Hsearch;
    simp_run.
  2:{ eexists. eexists. eexists. split; [reflexivity|]. simp_run.
      split; [exists [Planner; Schema; Nl2sql; Executor; Validator;
                      Synthesizer; Trace]; now left|].
      split; [apply Hbound; cbn; lia|].
      repeat (split; [first [reflexivity | constructor]|]).
      intros [H|[H|[]]]; discriminate. }
  unfold step at 1. simp_run. unfold node_planner, planner_branch. simp_run.
  destruct (mem (route a (AgentState.question st0)) ["sql"; "hybrid"]) eqn:Hroute.
  - change (String.eqb "sql" "rag") with false. cbv iota. simp_run.
    unfold step at 1. simp_run. unfold node_schema. simp_run.
    unfold step at 1. simp_run. unfold node_nl2sql. simp_run.
    destruct (generate_sql a (AgentState.question st0)
                (plan (AgentState.question st0) cs)) as [sql|e1] eqn:Hgen;
      simp_run.
    2:{ eexists. eexists. eexists. split; [reflexivity|]. simp_run.
        split; [exists [Executor; Validator; Synthesizer; Trace]; now left|].
        split; [apply Hbound; cbn; lia|].
        repeat (split; [first [reflexivity | constructor]|]).
        intros _. exists cs. now split. }
    unfold step at 1. simp_run. unfold node_executor. simp_run.
    pose proof (execute_sql_calls a [] sql (AgentState.repairs st0)) as Hcalls.
    destruct (execute_sql a [] sql (AgentState.repairs st0)) as [[es sr] lg].
    cbn [snd List.length Nat.add] in Hcalls. simp_run.
    unfold step at 1. simp_run.
    match goal with
    | |- context [node_validator ?w] =>
        destruct (node_validator_returns w) as (err & outcome & Hv); rewrite Hv
    end.
    simp_run.
    change (String.eqb "synthesize" "repair") with false. cbv iota.
    change (String.eqb "synthesize" "synthesize") with true. cbv iota. simp_run.
    unfold step at 1. simp_run. unfold node_synthesizer. simp_run.
    match goal with
    | |- context [synthesize ?f ?i ?id ?q ?h ?rt ?s ?res ?c ?k] =>
        destruct (synthesize f i id q h rt s res c k) as [out|e2]
    end; simp_run.
    + unfold step at 1. simp_run. unfold node_trace. simp_run.
      eexists. eexists. eexists. split; [reflexivity|]. simp_run.
      split; [exists []; now left|].
      split; [exact Hcalls|].
      split; [reflexivity|]. split; [reflexivity|].
      split; [repeat constructor|].
      intros _. exists cs. now split.
    + eexists. eexists. eexists. split; [reflexivity|]. simp_run.
      split; [exists [Trace]; now left|].
      split; [exact Hcalls|].
      split; [reflexivity|]. split; [reflexivity|].
      split; [constructor|].
      intros _. exists cs. now split.
  - change (String.eqb "rag" "rag") with true. cbv iota. simp_run.
    unfold step at 1. simp_run. unfold node_synthesizer. simp_run.
    match goal with
    | |- context [synthesize ?f ?i ?id ?q ?h ?rt ?s ?res ?c ?k] =>
        destruct (synthesize f i id q h rt s res c k) as [out|e2]
    end; simp_run.
    + unfold step at 1. simp_run. unfold node_trace. simp_run.
      eexists. eexists. eexists. split; [reflexivity|]. simp_run.
      split; [exists []; now right|].
      split; [apply Hbound; cbn; lia|].
      split; [reflexivity|]. split; [reflexivity|].
      split; [repeat constructor|].
      intros _. exists cs. now split.
    + eexists. eexists. eexists. split; [reflexivity|]. simp_run.
      split; [exists [Trace]; now right|].
      split; [apply Hbound; cbn; lia|].
      split; [reflexivity|]. split; [reflexivity|].
      split; [constructor|].
      intros _. exists cs. now split.
Qed.

(** C9.  When the store fails the generated query, the textual repair
    changes the text, the repair budget is not used up and the repaired
    query fails too, [execute_sql] returns the repaired text with the
    failing result of the repaired attempt.  Nothing behind the execute
    step replaces the query: the run goes on through the validator to
    the answer synthesis, the repair node is not entered, and the query
    of the final state, of the output line and of the trace line is
    the repaired text, though no repair succeeded. *)
Theorem failed_textual_repair_is_the_final_sql
  (float_of_text : string -> option pyfloat) (int_of_text : string -> option Z)
  (a : Agent) (item_id question format_hint sql : string) (cs : list Chunk)
  (fuel : nat) :
  let repaired := _repair_sql sql in
  let failing := sqlite_execute a [sql] repaired in
  mem (route a question) ["sql"; "hybrid"] = true ->
  search (retriever a) question 10 = Ok cs ->
  generate_sql a question (plan question cs) = Ok sql ->
  truthy (strip sql) = true ->
  success (sqlite_execute a [] sql) = false ->
  0 < max_repairs a ->
  repaired <> sql ->
  success failing = false ->
  (9 <= fuel)%nat ->
  execute_sql a [] sql 0 = ((repaired, failing), [sql; repaired])
  /\ exists w visited r,
       invoke float_of_text int_of_text a fuel
         (AgentState.new item_id question format_hint)
       = Some (w, visited, r)
       /\ store_log w = [sql; repaired]
       /\ AgentState.sql (state w) = repaired
       /\ AgentState.sql_res (state w) = failing
       /\ AgentState.repairs (state w) = 0
       /\ ~ In Repair visited
       /\ (r = None ->
           Contract.sql (project_contract (state w)) = repaired
           /\ map TraceEntry.sql (trace_file w) = [repaired]
           /\ map TraceEntry.sql_success (trace_file w) = [false]
           /\ map TraceEntry.repairs (trace_file w) = [0])
       /\ (r <> None -> trace_file w = []).
Proof.
  intros repaired failing Hroute Hsearch Hgen Hsql Hfail Hbudget Hdiff Hfail2 Hfuel.
  assert (Hex : execute_sql a [] sql 0 = ((repaired, failing), [sql; repaired])).
  { exact (execute_sql_failed_repair a [] sql 0 Hsql Hfail Hbudget Hdiff Hfail2). }
  split; [exact Hex|].
  destruct (structured_run float_of_text int_of_text a item_id question
              format_hint sql cs fuel Hroute Hsearch Hgen Hfuel)
    as (w & visited & r & Hrun & Hend & Hlog & Hrep & _ & Hq & Hres & _).
  rewrite Hex in Hlog, Hq, Hres. cbn [fst snd] in Hlog, Hq, Hres.
  exists w. eexists. exists r. split; [exact Hrun|].
  split; [exact Hlog|]. split; [exact Hq|]. split; [exact Hres|].
  split; [exact Hrep|].
  split.
  { intros Hin. apply in_app_or in Hin.
    destruct Hin as [Hin|Hin].
    - cbn [In] in Hin. repeat (destruct Hin as [Hin|Hin]; [discriminate|]).
      exact Hin.
    - destruct Hend as [(-> & _)|(-> & _)]; cbn [In] in Hin.
      + destruct Hin as [Hin|[]]. discriminate.
      + exact Hin. }
  split.
  - intros ->. destruct Hend as [(_ & _ & e & Hfile & Hes & Hok & Her & _)
                               |(_ & Hr & _)]; [|now contradiction Hr].
    unfold project_contract. cbn [Contract.sql]. split; [exact Hq|].
    rewrite Hfile. cbn [map]. rewrite Hes, Hok, Her, Hq, Hres, Hfail2.
    repeat split.
  - intros Hr. destruct Hend as [(_ & -> & _)|(_ & _ & Hfile)];
      [now contradiction Hr | exact Hfile].
Qed.

Lemma failed_textual_repair_is_the_final_sql_witness :
  exists w visited,
    run_item (agent_over failing_store 0) "q1" top_products_question
      "list[{product:str, revenue:float}]" = Some (w, visited, None)
    /\ AgentState.sql (state w) = _repair_sql (top_products_sql 3)
    /\ map TraceEntry.sql (trace_file w) = [_repair_sql (top_products_sql 3)]
    /\ _repair_sql (top_products_sql 3) <> top_products_sql 3.
Proof.
  assert (Hdiff : _repair_sql (top_products_sql 3) <> top_products_sql 3)
    by (vm_compute; discriminate).
  destruct (failed_textual_repair_is_the_final_sql no_float_text no_int_text
              (agent_over failing_store 0) "q1" top_products_question
              "list[{product:str, revenue:float}]" (top_products_sql 3) [] 40)
    as (_ & w & visited & r & Hrun & _ & Hq & _ & _ & _ & Hdone & _);
    try reflexivity; [exact Hdiff | lia |].
  unfold run_item. rewrite Hrun.
  assert (Hr : r = None).
  { assert (Hc : option_map (fun p => snd p)
                   (invoke no_float_text no_int_text (agent_over failing_store 0) 40
                      (AgentState.new "q1" top_products_question
                         "list[{product:str, revenue:float}]")) = Some None)
      by (vm_compute; reflexivity).
    rewrite Hrun in Hc. cbn in Hc. congruence. }
  subst r. destruct (Hdone eq_refl) as (_ & Htr & _).
  exists w, visited. repeat split; assumption.
Defined.

(** C2.  From a state whose repair counter is 0, with a repair budget
    [m] that is not negative, a run ends within nine steps of the
    driver, with or without an exception.  It enters the execute step
    at most once and the repair node never; the execute step sends one
    query to the store, and a second one, the textual repair, only
    when the first fails and the budget is not 0: at most [m + 1]
    calls, and never more than two.  The counter is 0 in the final
    state and in the trace line.  Only the repair node increments the
    counter, by one, and the validator asks for a repair only while
    the counter is below the budget of the state. *)
Theorem repair_loop_is_bounded
  (float_of_text : string -> option pyfloat) (int_of_text : string -> option Z)
  (a : Agent) (st : AgentState.t) (fuel : nat) :
  AgentState.repairs st = 0 ->
  0 <= max_repairs a ->
  (9 <= fuel)%nat ->
  (exists w visited r,
     invoke float_of_text int_of_text a fuel st = Some (w, visited, r)
     /\ (List.length visited <= 9)%nat
     /\ (count_node Executor visited <= 1)%nat
     /\ count_node Repair visited = 0%nat
     /\ (List.length (store_log w) <= Z.to_nat (max_repairs a) + 1)%nat
     /\ (List.length (store_log w) <= 2)%nat
     /\ AgentState.repairs (state w) = 0
     /\ AgentState.repairs (state w) <= max_repairs a
     /\ AgentState.max_repairs (state w) = AgentState.max_repairs st
     /\ Forall (fun e => TraceEntry.repairs e = 0
                         /\ TraceEntry.repairs e <= max_repairs a)
          (trace_file w))
  /\ (forall n w w' n',
        step float_of_text int_of_text a n w = Ok (n', w') ->
        AgentState.repairs (state w')
        = AgentState.repairs (state w) + (if node_eqb Repair n then 1 else 0))
  /\ (forall w w' n',
        step float_of_text int_of_text a Validator w = Ok (n', w') ->
        AgentState.needs_repair (state w') = true ->
        AgentState.repairs (state w) < AgentState.max_repairs (state w))
  /\ (forall log sql attempt,
        (List.length (snd (execute_sql a log sql attempt))
         <= List.length log
            + (if (max_repairs a <=? attempt)%Z then 1 else 2))%nat).
Proof.
  intros Hzero Hm Hfuel.
  split; [|split; [|split]]; [| | |apply execute_sql_calls].
  - destruct (run_is_a_straight_line float_of_text int_of_text a st fuel Hfuel)
      as (w & visited & r & Hrun & (rest & Hpath) & Hcalls & Hrep & Hmax & Htr & _).
    exists w, visited, r. split; [exact Hrun|].
    rewrite Hzero in Hcalls, Hrep, Htr.
    assert (Hshape : (List.length visited <= 9)%nat
                     /\ (count_node Executor visited <= 1)%nat
                     /\ count_node Repair visited = 0%nat).
    { destruct Hpath as [Hp|Hp].
      - destruct (prefix_of_path Executor visited rest sql_path Hp) as (_ & He & Hl).
        destruct (prefix_of_path Repair visited rest sql_path Hp) as (_ & Hr & _).
        cbn in He, Hr, Hl. lia.
      - destruct (prefix_of_path Executor visited rest rag_path Hp) as (_ & He & Hl).
        destruct (prefix_of_path Repair visited rest rag_path Hp) as (_ & Hr & _).
        cbn in He, Hr, Hl. lia. }
    destruct Hshape as (Hl & He & Hr).
    split; [exact Hl|]. split; [exact He|]. split; [exact Hr|].
    split.
    { destruct (Z.leb_spec (max_repairs a) 0); lia. }
    split.
    { destruct (max_repairs a <=? 0); lia. }
    split; [exact Hrep|]. split; [lia|]. split; [exact Hmax|].
    eapply Forall_impl; [|exact Htr]. cbn beta. intros e (He0 & _). lia.
  - apply only_repair_increments.
  - intros w w' n' Hstep.
    now apply (validator_hands_over_to_synthesizer float_of_text int_of_text
                 a w w' n' Hstep).
Qed.

Lemma repair_loop_is_bounded_witness :
  exists w visited r,
    run_item (agent_over failing_store 0) "q1" top_products_question
      "list[{product:str, revenue:float}]" = Some (w, visited, r)
    /\ (List.length (store_log w) <= 3)%nat
    /\ count_node Repair visited = 0%nat.
Proof.
  destruct (repair_loop_is_bounded no_float_text no_int_text
              (agent_over failing_store 0)
              (AgentState.new "q1" top_products_question
                 "list[{product:str, revenue:float}]") 40)
    as ((w & visited & r & Hrun & _ & _ & Hr & Hl & _) & _).
  - reflexivity.
  - cbn. lia.
  - lia.
  - exists w, visited, r. split; [exact Hrun|]. split; [exact Hl | exact Hr].
Defined.


(* ================================================================== *)
(** * Further properties of the code *)

(* ------------------------------------------------------------------ *)
(** ** Lengths and ends of strings *)

Lemma length_append (s t : string) :
  String.length (s ++ t) = (String.length s + String.length t)%nat.
Proof. induction s; simpl; congruence. Qed.

Lemma drop_append (s t : string) : drop (String.length s) (s ++ t) = t.
Proof. induction s; simpl; auto. Qed.

Lemma take_append (s t : string) : take (String.length s) (s ++ t) = s.
Proof. induction s; simpl; congruence. Qed.

Lemma endswith_append (s p : string) : endswith (s ++ p) p = true.
Proof.
  unfold endswith. rewrite length_append.
  replace (String.length s + String.length p - String.length p)%nat
    with (String.length s) by lia.
  rewrite drop_append, String.eqb_refl.
  replace (Nat.leb (String.length p) (String.length s + String.length p))
    with true by (symmetry; apply Nat.leb_le; lia).
  reflexivity.
Qed.

(* ------------------------------------------------------------------ *)
(** ** The literal boundary of the query text *)

Lemma prefix_empty (s : string) : String.prefix "" s = true.
Proof. now destruct s. Qed.

Lemma replace_quote_aux (fuel : nat) (s : string) :
  (String.length s <= fuel)%nat ->
  replace_aux fuel "'" "''" s = escape s.
Proof.
  revert s. induction fuel as [|fuel IH]; intros s Hlen.
  - destruct s; [reflexivity | simpl in Hlen; lia].
  - destruct s as [|c s]; [reflexivity|].
    simpl in Hlen. cbn [replace_aux String.prefix escape].
    destruct (Ascii.eqb_spec c "'"%char) as [->|Hne].
    + destruct (ascii_dec "'"%char "'"%char) as [_|Hn]; [|congruence].
      rewrite prefix_empty. cbn. rewrite IH by lia. reflexivity.
    + destruct (ascii_dec "'"%char c) as [He|_]; [congruence|].
      rewrite IH by lia. reflexivity.
Qed.

Lemma sanitize_is_escape (s : string) : sanitize_literal s = escape s.
Proof. unfold sanitize_literal, replace. now apply replace_quote_aux. Qed.

Lemma read_escaped (s rest : string) :
  String.prefix "'" rest = false ->
  read_literal (escape s ++ String "'"%char rest) = Some (s, rest).
Proof.
  intros Hrest. induction s as [|c s IH].
  - cbn. destruct rest as [|d rest]; [reflexivity|].
    cbn in Hrest. destruct (Ascii.eqb_spec d "'"%char) as [->|_]; [|reflexivity].
    destruct (ascii_dec "'"%char "'"%char);
      [rewrite prefix_empty in Hrest; discriminate | congruence].
  - cbn [escape]. destruct (Ascii.eqb_spec c "'"%char) as [->|Hne].
    + cbn. cbn in IH. rewrite IH. reflexivity.
    + cbn [append read_literal].
      destruct (Ascii.eqb_spec c "'"%char) as [|_]; [contradiction|].
      rewrite IH. reflexivity.
Qed.

(** X1.  [sanitize_literal] doubles every single quote and changes
    nothing else, so a category text put between quotes is read back
    whole by the quoting rule of the query language: the literal ends
    at the closing quote the template writes, not inside the text, and
    its body is the text. *)
Theorem sanitized_literal_reads_back (value rest : string) :
  String.prefix "'" rest = false ->
  read_literal (sanitize_literal value ++ String "'"%char rest)
  = Some (value, rest).
Proof.
  intros Hrest. rewrite sanitize_is_escape. now apply read_escaped.
Qed.

Lemma sanitized_literal_reads_back_witness :
  read_literal (sanitize_literal "O'Brien's; DROP TABLE x --" ++ "' AND 1")
  = Some ("O'Brien's; DROP TABLE x --", " AND 1").
Proof.
  apply (sanitized_literal_reads_back "O'Brien's; DROP TABLE x --" " AND 1").
  reflexivity.
Defined.

(* ------------------------------------------------------------------ *)
(** ** The normal form of a textually repaired query *)

Lemma sub_spaces_single_spaced (b : bool) (s : string) :
  single_spaced b (Re.sub_spaces_aux b s) = true.
Proof.
  revert b. induction s as [|c s IH]; intros b; [reflexivity|].
  cbn [Re.sub_spaces_aux]. destruct (is_space c) eqn:Hc.
  - destruct b; [apply IH|].
    cbn [single_spaced]. change (is_space " "%char) with true.
    cbn. apply IH.
  - cbn [single_spaced]. rewrite Hc. apply IH.
Qed.

Lemma single_spaced_weaken (s : string) :
  single_spaced true s = true -> single_spaced false s = true.
Proof.
  destruct s as [|c s]; [reflexivity|]. cbn [single_spaced].
  destruct (is_space c); [|auto].
  rewrite !Bool.andb_true_iff. intros [[_ H] _]. discriminate.
Qed.

Lemma lstrip_single_spaced (b : bool) (s : string) :
  single_spaced b s = true -> single_spaced true (lstrip_by is_space s) = true.
Proof.
  revert b. induction s as [|c s IH]; intros b; [reflexivity|].
  cbn [single_spaced lstrip_by]. destruct (is_space c) eqn:Hc.
  - rewrite !Bool.andb_true_iff. intros [_ H]. now apply (IH true).
  - intros H. cbn [single_spaced]. now rewrite Hc.
Qed.

Lemma rstrip_single_spaced (b : bool) (s : string) :
  single_spaced b s = true -> single_spaced b (rstrip_by is_space s) = true.
Proof.
  revert b. induction s as [|c s IH]; intros b; [reflexivity|].
  cbn [single_spaced rstrip_by]. destruct (is_space c) eqn:Hc.
  - rewrite !Bool.andb_true_iff. intros [[Hsp Hb] H].
    specialize (IH true H).
    destruct (rstrip_by is_space s) as [|d t]; [reflexivity|].
    cbn [single_spaced]. rewrite Hc, Hsp, Hb. exact IH.
  - intros H. specialize (IH false H).
    destruct (rstrip_by is_space s) as [|d t].
    + cbn [single_spaced]. now rewrite Hc.
    + cbn [single_spaced]. rewrite Hc. exact IH.
Qed.

Lemma append_semicolon_single_spaced (b : bool) (s : string) :
  single_spaced b s = true -> single_spaced b (s ++ ";") = true.
Proof.
  revert b. induction s as [|c s IH]; intros b; [reflexivity|].
  cbn [single_spaced append]. destruct (is_space c).
  - rewrite !Bool.andb_true_iff. intros [H1 H2]. split; [exact H1|]. now apply IH.
  - apply IH.
Qed.

Lemma single_spaced_has_no (b : bool) (s : string) (c : ascii) :
  single_spaced b s = true -> is_space c = true -> c <> " "%char ->
  contains (String c "") s = false.
Proof.
  intros Hs Hc Hne. revert b Hs. induction s as [|d s IH]; intros b Hs.
  - reflexivity.
  - cbn [contains String.prefix]. cbn [single_spaced] in Hs.
    destruct (ascii_dec c d) as [<-|Hcd].
    + rewrite Hc in Hs. rewrite !Bool.andb_true_iff in Hs.
      destruct Hs as [[He _] _]. apply Ascii.eqb_eq in He. contradiction.
    + cbn [orb]. destruct (is_space d).
      * rewrite !Bool.andb_true_iff in Hs. destruct Hs as [_ Hs]. now apply (IH true).
      * now apply (IH false).
Qed.

Lemma no_leading_blank (s : string) :
  single_spaced true s = true -> String.prefix " " s = false.
Proof.
  destruct s as [|c s]; [reflexivity|]. cbn [single_spaced String.prefix].
  destruct (ascii_dec " "%char c) as [<-|_]; [|reflexivity].
  change (is_space " "%char) with true. cbn. discriminate.
Qed.

(** X2.  Whatever the query text, [_repair_sql] returns a text in
    normal form: it ends with a semicolon, it holds no whitespace but
    single blanks (no line feed, no tab, no two blanks in a row), and it
    does not begin with a blank.  In particular it is never empty. *)
Theorem repaired_sql_is_normalized (sql : string) :
  endswith (_repair_sql sql) ";" = true
  /\ single_spaced true (_repair_sql sql) = true
  /\ contains nl (_repair_sql sql) = false
  /\ contains "  " (_repair_sql sql) = false
  /\ truthy (_repair_sql sql) = true.
Proof.
  assert (Hmain : endswith (_repair_sql sql) ";" = true
                  /\ single_spaced true (_repair_sql sql) = true).
  { unfold _repair_sql.
    match goal with
    | |- context [strip (Re.sub_spaces ?x)] => set (body := x)
    end.
    assert (Hs : single_spaced true (strip (Re.sub_spaces body)) = true).
    { unfold strip, strip_by. apply rstrip_single_spaced.
      apply (lstrip_single_spaced false). apply sub_spaces_single_spaced. }
    destruct (endswith (strip (Re.sub_spaces body)) ";") eqn:He; cbn [negb].
    - split; [exact He | exact Hs].
    - split; [apply endswith_append|].
      now apply append_semicolon_single_spaced. }
  destruct Hmain as [Hend Hs].
  split; [exact Hend|]. split; [exact Hs|].
  split; [|split].
  - apply (single_spaced_has_no true); [exact Hs|reflexivity|discriminate].
  - revert Hs. generalize (_repair_sql sql). intros s.
    assert (H : forall b, single_spaced b s = true -> contains "  " s = false).
    { induction s as [|c s IH]; intros b Hs; [reflexivity|].
      cbn [contains String.prefix]. cbn [single_spaced] in Hs.
      destruct (ascii_dec " "%char c) as [<-|Hc].
      - change (is_space " "%char) with true in Hs.
        rewrite !Bool.andb_true_iff in Hs. destruct Hs as [_ Hs].
        rewrite (no_leading_blank s Hs). cbn [orb]. now apply (IH true).
      - cbn [orb]. destruct (is_space c).
        + rewrite !Bool.andb_true_iff in Hs. destruct Hs as [_ Hs]. now apply (IH true).
        + now apply (IH false). }
    apply H.
  - destruct (_repair_sql sql); [discriminate Hend | reflexivity].
Qed.

(* ------------------------------------------------------------------ *)
(** ** What the execute step reports *)

Lemma execute_sql_last_call
  (a : Agent) (log : list string) (sql : string) (attempt : Z) :
  let out_sql := fst (fst (execute_sql a log sql attempt)) in
  let res := snd (fst (execute_sql a log sql attempt)) in
  let log' := snd (execute_sql a log sql attempt) in
  (truthy (strip sql) = false ->
   out_sql = "" /\ res = empty_result /\ log' = log)
  /\ (truthy (strip sql) = true ->
      exists before,
        log' = (before ++ [out_sql])%list
        /\ res = sqlite_execute a before out_sql
        /\ (before = log \/ before = (log ++ [sql])%list)
        /\ (before = log -> out_sql = sql)
        /\ (before <> log -> out_sql = _repair_sql sql /\ out_sql <> sql
                             /\ attempt < max_repairs a
                             /\ success (sqlite_execute a log sql) = false))
  /\ (truthy (strip sql) = true ->
      success (sqlite_execute a log sql) = true ->
      out_sql = sql /\ log' = (log ++ [sql])%list
      /\ res = sqlite_execute a log sql).
Proof.
  cbv zeta. unfold execute_sql.
  destruct (truthy (strip sql)) eqn:Hblank; cbn [negb].
  2:{ split; [intros _; cbn [fst snd]; auto|]. split; discriminate. }
  split; [discriminate|].
  assert (Hgrow : (log ++ [sql])%list <> log).
  { intros H. apply (f_equal (@List.length string)) in H.
    rewrite length_app in H. simpl in H. lia. }
  assert (Hsame : forall res : SqlResult,
            res = sqlite_execute a log sql ->
            exists before,
              (log ++ [sql])%list = (before ++ [sql])%list
              /\ res = sqlite_execute a before sql
              /\ (before = log \/ before = (log ++ [sql])%list)
              /\ (before = log -> sql = sql)
              /\ (before <> log ->
                  sql = _repair_sql sql /\ sql <> sql
                  /\ attempt < max_repairs a
                  /\ success (sqlite_execute a log sql) = false)).
  { intros res ->. exists log.
    split; [reflexivity|]. split; [reflexivity|]. split; [now left|].
    split; [reflexivity|]. intros H. now contradiction H. }
  destruct (success (sqlite_execute a log sql)) eqn:Hs.
  { cbn [fst snd]. split; [intros _; now apply Hsame|].
    intros _ _. auto. }
  split; [|intros _ H; discriminate H].
  intros _.
  destruct (Z.leb_spec (max_repairs a) attempt) as [Hle|Hlt].
  { cbn [fst snd]. now apply Hsame. }
  destruct (String.eqb_spec (_repair_sql sql) sql) as [Heq|Hne].
  { cbn [fst snd]. now apply Hsame. }
  destruct (success (sqlite_execute a (log ++ [sql])%list (_repair_sql sql)));
    cbn [fst snd]; exists (log ++ [sql])%list;
    (split; [reflexivity|]); (split; [reflexivity|]);
    (split; [now right|]);
    (split; [intros H; exfalso; exact (Hgrow H)|]);
    intros _; auto.
Qed.

(** X3.  [execute_sql] reports the query it ran last together with the
    store's answer to that very query.  A blank query is not sent to
    the store at all and gives the empty successful result.  A query
    the store accepts is reported as it was given, after one call, and
    so is a failing query when the repair budget is used up or the
    textual repair changes nothing.  In every other case, a failing
    query below the budget whose textual repair differs from it, the
    repaired text is sent as a second call and reported with the
    store's answer to it, whether that answer is a success or not. *)
Theorem execute_sql_reports_what_it_ran
  (a : Agent) (log : list string) (sql : string) (attempt : Z) :
  let out_sql := fst (fst (execute_sql a log sql attempt)) in
  let res := snd (fst (execute_sql a log sql attempt)) in
  let log' := snd (execute_sql a log sql attempt) in
  (truthy (strip sql) = false ->
   out_sql = "" /\ res = empty_result /\ log' = log)
  /\ (truthy (strip sql) = true ->
      exists before,
        log' = (before ++ [out_sql])%list
        /\ res = sqlite_execute a before out_sql
        /\ (before = log \/ before = (log ++ [sql])%list)
        /\ (before = log -> out_sql = sql)
        /\ (before <> log -> out_sql = _repair_sql sql /\ out_sql <> sql
                             /\ attempt < max_repairs a
                             /\ success (sqlite_execute a log sql) = false))
  /\ (truthy (strip sql) = true ->
      success (sqlite_execute a log sql) = true ->
      out_sql = sql /\ log' = (log ++ [sql])%list
      /\ res = sqlite_execute a log sql)
  /\ (truthy (strip sql) = true ->
      success (sqlite_execute a log sql) = false ->
      max_repairs a <= attempt \/ _repair_sql sql = sql ->
      out_sql = sql /\ log' = (log ++ [sql])%list
      /\ res = sqlite_execute a log sql)
  /\ (truthy (strip sql) = true ->
      success (sqlite_execute a log sql) = false ->
      attempt < max_repairs a ->
      _repair_sql sql <> sql ->
      out_sql = _repair_sql sql
      /\ log' = ((log ++ [sql]) ++ [_repair_sql sql])%list
      /\ res = sqlite_execute a (log ++ [sql])%list (_repair_sql sql)).
Proof.
  cbv zeta.
  destruct (execute_sql_last_call a log sql attempt) as (Hblank & Hlast & Hok).
  split; [exact Hblank|]. split; [exact Hlast|]. split; [exact Hok|].
  split.
  - intros Hsql Hfail Hstop. unfold execute_sql. rewrite Hsql, Hfail.
    cbn [negb].
    destruct (Z.leb_spec (max_repairs a) attempt) as [Hle|Hlt];
      [cbn [fst snd]; auto|].
    destruct Hstop as [Hle|Hsame]; [lia|].
    rewrite Hsame, String.eqb_refl. cbn [fst snd]. auto.
  - intros Hsql Hfail Hlt Hne. unfold execute_sql. rewrite Hsql, Hfail.
    cbn [negb].
    destruct (Z.leb_spec (max_repairs a) attempt) as [Hle|_]; [lia|].
    destruct (String.eqb_spec (_repair_sql sql) sql) as [He|_]; [contradiction|].
    destruct (success (sqlite_execute a (log ++ [sql])%list (_repair_sql sql)));
      cbn [fst snd]; auto.
Qed.

Lemma execute_sql_reports_what_it_ran_witness :
  fst (fst (execute_sql (agent_over failing_store 0) [] (top_products_sql 3) 0))
  = _repair_sql (top_products_sql 3).
Proof.
  destruct (execute_sql_reports_what_it_ran (agent_over failing_store 0) []
              (top_products_sql 3) 0) as (_ & Hran & _).
  destruct (Hran eq_refl) as (before & Hlog & _ & _ & _ & Hrep).
  apply Hrep. intros ->. vm_compute in Hlog. discriminate.
Defined.

(* ------------------------------------------------------------------ *)
(** ** Answer synthesis: defaults, confidence, object answers *)




(** X5.  Whenever the answer synthesis returns, the output carries the
    item id and the query text it was given, the citations of
    [_build_citations], and a confidence that is one of 0.4, 0.5, 0.85
    and 0.9, so a number between 0 and 1. *)
Theorem synthesize_output_is_well_formed
  (float_of_text : string -> option pyfloat) (int_of_text : string -> option Z)
  (item_id question format_hint route sql : string) (sql_res : SqlResult)
  (cs : list Chunk) (constraints : Constraints) (out : Output.t) :
  synthesize float_of_text int_of_text item_id question format_hint route
             sql sql_res cs constraints = Ok out ->
  Output.id out = item_id
  /\ Output.sql out = sql
  /\ Output.citations out = _build_citations sql cs
  /\ In (Output.confidence out)
        [confidence_of 0.4; confidence_of 0.5; confidence_of 0.85; confidence_of 0.9]
  /\ exists q, Output.confidence out = FFin q /\ (0 <= q)%Q /\ (q <= 1)%Q.
Proof.
  unfold synthesize. intros H.
  assert (Hq : forall f,
            In f [confidence_of 0.4; confidence_of 0.5; confidence_of 0.85;
                  confidence_of 0.9] ->
            In f [confidence_of 0.4; confidence_of 0.5; confidence_of 0.85;
                  confidence_of 0.9]
            /\ exists q, f = FFin q /\ (0 <= q)%Q /\ (q <= 1)%Q).
  { intros f Hin. split; [exact Hin|].
    cbn [In] in Hin. destruct Hin as [<-|[<-|[<-|[<-|[]]]]];
      eexists; (split; [reflexivity|]); split; unfold Qle; cbn; lia. }
  assert (Hfin : forall (ans : answer) (c : pyfloat) (e : string),
            In (py_round c 2)
               [confidence_of 0.4; confidence_of 0.5; confidence_of 0.85;
                confidence_of 0.9] ->
            Ok (Output.Mk item_id ans sql (py_round c 2) e (_build_citations sql cs))
            = Ok out ->
            Output.id out = item_id
            /\ Output.sql out = sql
            /\ Output.citations out = _build_citations sql cs
            /\ In (Output.confidence out)
                  [confidence_of 0.4; confidence_of 0.5; confidence_of 0.85;
                   confidence_of 0.9]
            /\ exists q, Output.confidence out = FFin q /\ (0 <= q)%Q /\ (q <= 1)%Q).
  { intros ans c e Hin Heq. inversion Heq; subst out.
    cbn [Output.id Output.sql Output.citations Output.confidence].
    split; [reflexivity|]. split; [reflexivity|]. split; [reflexivity|].
    now apply Hq. }
  destruct (parse_format_hint format_hint).
  - destruct (extract_policy_number question cs) as [n|].
    + cbn [bind] in H. apply Hfin in H; [exact H|]. vm_compute. auto 6.
    + destruct (rows sql_res) as [|r0 more].
      * cbn [bind] in H. apply Hfin in H; [exact H|]. vm_compute. auto 6.
      * destruct (first_value r0) as [v|]; [|discriminate].
        cbn [bind] in H.
        destruct (py_int int_of_text v); [|discriminate].
        cbn [bind] in H. apply Hfin in H; [exact H|]. vm_compute. auto 6.
  - destruct (rows sql_res) as [|r0 more].
    + cbn [bind] in H. rewrite Bool.andb_false_r in H.
      apply Hfin in H; [exact H|]. vm_compute. auto 6.
    + destruct (first_value r0) as [v|]; [|discriminate].
      cbn [bind] in H. destruct (success sql_res);
        (apply Hfin in H; [exact H|]); vm_compute; auto 6.
  - cbn [bind] in H. destruct (rows sql_res);
      (apply Hfin in H; [exact H|]); vm_compute; auto 6.
  - cbn [bind] in H. apply Hfin in H; [exact H|]. vm_compute. auto 6.
  - cbn [bind] in H. destruct (rows sql_res);
      (apply Hfin in H; [exact H|]); vm_compute; auto 6.
  - cbn [bind] in H. apply Hfin in H; [exact H|]. vm_compute. auto 6.
Qed.

Lemma list_hint_returns
  (float_of_text : string -> option pyfloat) (int_of_text : string -> option Z)
  (item_id question format_hint route sql : string) (sql_res : SqlResult)
  (cs : list Chunk) (constraints : Constraints) (inner : FormatHint) :
  parse_format_hint format_hint = HList inner ->
  returns (synthesize float_of_text int_of_text item_id question format_hint
             route sql sql_res cs constraints).
Proof.
  intros Hhint. unfold synthesize. rewrite Hhint. cbn [bind]. now eexists.
Qed.

Lemma synthesize_output_is_well_formed_witness :
  exists out,
    synthesize no_float_text no_int_text "q1" top_products_question
      "list[{product:str, revenue:float}]" "hybrid" (top_products_sql 3)
      revenue_result [calendar_chunk] no_constraints = Ok out
    /\ Output.sql out = top_products_sql 3
    /\ Output.id out = "q1".
Proof.
  destruct (list_hint_returns no_float_text no_int_text "q1" top_products_question
              "list[{product:str, revenue:float}]" "hybrid" (top_products_sql 3)
              revenue_result [calendar_chunk] no_constraints
              (HObject [("product", "str"); ("revenue", "float")]) eq_refl)
    as [out Hrun].
  exists out. split; [exact Hrun|].
  destruct (synthesize_output_is_well_formed no_float_text no_int_text "q1"
              top_products_question "list[{product:str, revenue:float}]" "hybrid"
              (top_products_sql 3) revenue_result [calendar_chunk] no_constraints
              out Hrun) as (Hid & Hsql & _).
  split; [exact Hsql | exact Hid].
Defined.

(** X6.  For a format hint that parses as an object, whatever fields
    it lists, the answer is built from the first result row only: the
    fields of the hint are not consulted, every key of the answer is
    the lower-cased name of a column of that row, every column of that
    row is there under its lower-cased name, float cells are rounded to
    2 decimals, and the confidence is 0.9.  Further rows are ignored.
    Without rows the answer is the empty object at confidence 0.5. *)
Theorem object_answer_shape
  (float_of_text : string -> option pyfloat) (int_of_text : string -> option Z)
  (item_id question format_hint route sql : string) (sql_res : SqlResult)
  (cs : list Chunk) (constraints : Constraints) (fields : list (string * string)) :
  parse_format_hint format_hint = HObject fields ->
  exists out,
    synthesize float_of_text int_of_text item_id question format_hint route
               sql sql_res cs constraints = Ok out
    /\ (rows sql_res = [] ->
        Output.final_answer out = ARow []
        /\ Output.confidence out = confidence_of 0.5)
    /\ (forall r0 more,
          rows sql_res = r0 :: more ->
          Output.final_answer out = ARow (format_row float_of_text r0)
          /\ Output.confidence out = confidence_of 0.9
          /\ (forall k v, In (k, v) (format_row float_of_text r0) ->
                lower k = k
                /\ exists c v0, In (c, v0) r0 /\ k = lower c
                                /\ v = format_value float_of_text v0)
          /\ (forall c v0, In (c, v0) r0 ->
                In (lower c) (keys (format_row float_of_text r0)))).
Proof.
  intros Hhint. eexists. split.
  { unfold synthesize. rewrite Hhint. cbn [bind]. reflexivity. }
  cbn [Output.final_answer Output.confidence]. split.
  - intros ->. split; reflexivity.
  - intros r0 more ->. split; [reflexivity|]. split; [reflexivity|].
    split.
    + intros k v Hin. now apply format_row_in.
    + intros c v0 Hin. now apply (format_row_covers float_of_text r0 c v0).
Qed.

Lemma object_answer_shape_witness :
  exists out,
    synthesize no_float_text no_int_text "q4" "Top category by quantity"
      "{category:str, quantity:int}" "hybrid" "" revenue_result []
      no_constraints = Ok out
    /\ Output.final_answer out
       = ARow [("product", VStr "Chai"); ("revenue", VFloat (FFin (Qred 12.35)))].
Proof.
  destruct (object_answer_shape no_float_text no_int_text "q4"
              "Top category by quantity" "{category:str, quantity:int}" "hybrid"
              "" revenue_result [] no_constraints
              [("category", "str"); ("quantity", "int")] eq_refl)
    as (out & Hrun & _ & Hrow).
  exists out. split; [exact Hrun|].
  destruct (Hrow _ _ eq_refl) as (Hans & _). exact Hans.
Defined.

(* ------------------------------------------------------------------ *)
(** ** Runs of the graph *)




Lemma strip_truthy (s : string) : truthy (strip s) = true -> truthy s = true.
Proof. destruct s; [discriminate | reflexivity]. Qed.

(** X8.  When the route is a structured one and the store accepts the
    generated query, nothing is repaired: the run goes through the
    schema, query synthesis, execute and validate nodes once and on to
    the answer synthesis; the store is called exactly once, with the
    generated query; the repair counter stays 0, the constraints stay
    the planner's, and the query text and the result that reach the
    answer synthesis are the generated query and the store's answer to
    it.  This holds with or without rows in the answer: for a
    successful result without rows the validator records that a repair
    is needed, and the run goes on to the answer synthesis all the
    same. *)
Theorem accepted_first_result_is_not_repaired
  (float_of_text : string -> option pyfloat) (int_of_text : string -> option Z)
  (a : Agent) (item_id question format_hint sql : string) (cs : list Chunk)
  (fuel : nat) :
  mem (route a question) ["sql"; "hybrid"] = true ->
  search (retriever a) question 10 = Ok cs ->
  generate_sql a question (plan question cs) = Ok sql ->
  truthy (strip sql) = true ->
  success (sqlite_execute a [] sql) = true ->
  (9 <= fuel)%nat ->
  exists w visited r,
    invoke float_of_text int_of_text a fuel
      (AgentState.new item_id question format_hint)
    = Some (w, [Router; RetrieverNode; Planner; Schema; Nl2sql; Executor;
                Validator; Synthesizer] ++ visited, r)%list
    /\ ((visited = [Trace] /\ r = None) \/ (visited = [] /\ r <> None))
    /\ store_log w = [sql]
    /\ AgentState.repairs (state w) = 0
    /\ AgentState.needs_repair (state w)
       = match rows (sqlite_execute a [] sql) with
         | [] => true
         | _ :: _ => false
         end
    /\ AgentState.constraints (state w) = plan question cs
    /\ AgentState.sql (state w) = sql
    /\ AgentState.sql_res (state w) = sqlite_execute a [] sql.
Proof.
  intros Hroute Hsearch Hgen Hsql Hok Hfuel.
  assert (Hexec : execute_sql a [] sql 0 = ((sql, sqlite_execute a [] sql), [sql])).
  { unfold execute_sql. rewrite Hsql, Hok. reflexivity. }
  destruct (structured_run float_of_text int_of_text a item_id question
              format_hint sql cs fuel Hroute Hsearch Hgen Hfuel)
    as (w & visited & r & Hrun & Hend & Hlog & Hrep & Hc & Hq & Hres & Hneed).
  rewrite Hexec in Hlog, Hq, Hres, Hneed. cbn [fst snd] in Hlog, Hq, Hres, Hneed.
  exists w, visited, r. split; [exact Hrun|].
  split.
  { destruct Hend as [(Hv & Hr & _)|(Hv & Hr & _)]; [left | right]; now split. }
  split; [exact Hlog|]. split; [exact Hrep|].
  split.
  { rewrite Hneed. unfold repair_wanted.
    rewrite (strip_truthy sql Hsql), Hok. reflexivity. }
  split; [exact Hc|]. split; [exact Hq | exact Hres].
Qed.

Lemma accepted_first_result_is_not_repaired_witness :
  exists w visited r,
    run_item (agent_over revenue_store 0) "q1" top_products_question
      "list[{product:str, revenue:float}]"
    = Some (w, [Router; RetrieverNode; Planner; Schema; Nl2sql; Executor;
                Validator; Synthesizer] ++ visited, r)%list
    /\ store_log w = [top_products_sql 3].
Proof.
  destruct (accepted_first_result_is_not_repaired no_float_text no_int_text
              (agent_over revenue_store 0) "q1" top_products_question
              "list[{product:str, revenue:float}]" (top_products_sql 3) [] 40)
    as (w & visited & r & Hrun & _ & Hlog & _).
  - reflexivity.
  - reflexivity.
  - reflexivity.
  - reflexivity.
  - reflexivity.
  - lia.
  - exists w, visited, r. split; [exact Hrun | exact Hlog].
Defined.

(* ------------------------------------------------------------------ *)
(** ** The output line and the trace line of an item *)

Section Traced.

Variable float_of_text : string -> option pyfloat.
Variable int_of_text : string -> option Z.
Variable a : Agent.

(** Where a run ends: at the node whose step raised, or at the node
    whose step led to [END]. *)
Lemma run_ends (st0 : AgentState.t) (fuel : nat) :
  forall n w w' visited r,
    reaches float_of_text int_of_text a st0 n w ->
    run float_of_text int_of_text a fuel n w = Some (w', visited, r) ->
    exists n_last w_last,
      reaches float_of_text int_of_text a st0 n_last w_last
      /\ ((r = None
           /\ step float_of_text int_of_text a n_last w_last = Ok (None, w'))
          \/ (exists e, r = Some e
                /\ step float_of_text int_of_text a n_last w_last = Raise e
                /\ w' = w_last)).
Proof.
  induction fuel as [|fuel IH]; intros n w w' visited r Hreach Hrun;
    [discriminate|].
  cbn [run] in Hrun.
  destruct (step float_of_text int_of_text a n w) as [[[n1|] w1]|e] eqn:Hs.
  - destruct (run float_of_text int_of_text a fuel n1 w1)
      as [[[w2 vis2] r2]|] eqn:Hrun1; [|discriminate].
    injection Hrun as <- <- <-.
    apply (IH n1 w1 w2 vis2 r2); [|exact Hrun1].
    exact (reaches_step float_of_text int_of_text a st0 n n1 w w1 Hreach Hs).
  - injection Hrun as <- <- <-. exists n, w. split; [exact Hreach|]. now left.
  - injection Hrun as <- <- <-. exists n, w. split; [exact Hreach|].
    right. exists e. auto.
Qed.

Lemma only_trace_ends (n : node) (w w' : World) :
  step float_of_text int_of_text a n w = Ok (None, w') ->
  n = Trace
  /\ state w' = state w
  /\ store_log w' = store_log w
  /\ exists e,
       trace_file w' = (trace_file w ++ [e])%list
       /\ TraceEntry.item_id e = AgentState.item_id (state w)
       /\ TraceEntry.question e = AgentState.question (state w)
       /\ TraceEntry.route e = AgentState.route (state w)
       /\ TraceEntry.constraints e = AgentState.constraints (state w)
       /\ TraceEntry.sql e = AgentState.sql (state w)
       /\ TraceEntry.sql_success e = success (AgentState.sql_res (state w))
       /\ TraceEntry.repairs e = AgentState.repairs (state w)
       /\ TraceEntry.needs_repair e = AgentState.needs_repair (state w).
Proof.
  intros Hstep. unfold step in Hstep.
  destruct n; cbn [run_node] in Hstep.
  - unfold node_router in Hstep. simp_state. discriminate.
  - unfold node_retriever in Hstep.
    destruct (retrieve a _ _); simp_state; discriminate.
  - unfold node_planner in Hstep. simp_state.
    match type of Hstep with
    | context [String.eqb ?x "rag"] => destruct (String.eqb x "rag")
    end; discriminate.
  - unfold node_schema in Hstep. simp_state. discriminate.
  - unfold node_nl2sql in Hstep.
    destruct (generate_sql a _ _); simp_state; discriminate.
  - unfold node_executor in Hstep.
    destruct (execute_sql a _ _ _) as [[es sr] lg]. simp_state. discriminate.
  - unfold node_validator in Hstep.
    destruct (truthy (AgentState.sql (state w)));
    destruct (success (AgentState.sql_res (state w)));
    destruct (rows (AgentState.sql_res (state w)));
    destruct (AgentState.repairs (state w) <? AgentState.max_repairs (state w));
    cbn [negb] in Hstep; simp_state; discriminate.
  - unfold node_repair in Hstep.
    destruct (generate_sql a _ _); simp_state; discriminate.
  - unfold node_synthesizer in Hstep.
    destruct (synthesize _ _ _ _ _ _ _ _ _ _); simp_state; discriminate.
  - unfold node_trace in Hstep. simp_state. inversion Hstep; subst; clear Hstep.
    cbn [state store_log trace_file].
    split; [reflexivity|]. split; [reflexivity|]. split; [reflexivity|].
    eexists. split; [reflexivity|]. cbn. repeat split; reflexivity.
Qed.

Lemma trace_never_raises (w : World) (e : exn) :
  step float_of_text int_of_text a Trace w <> Raise e.
Proof. unfold step. cbn. discriminate. Qed.

Lemma step_keeps_item_in_progress (st0 : AgentState.t) (n n' : node)
  (w w' : World) :
  item_in_progress a st0 n w ->
  step float_of_text int_of_text a n w = Ok (Some n', w') ->
  item_in_progress a st0 n' w'.
Proof.
  intros (Hid & Hq & Htr & Hroute & Hans & Hout) Hstep.
  unfold step in Hstep. unfold item_in_progress.
  assert (Hkeep : forall (w1 : World) (n1 : node),
            AgentState.item_id (state w1) = AgentState.item_id (state w) ->
            AgentState.question (state w1) = AgentState.question (state w) ->
            trace_file w1 = trace_file w ->
            AgentState.route (state w1)
            = (if node_eqb n Router then route a (AgentState.question (state w))
               else AgentState.route (state w)) ->
            AgentState.final_answer (state w1) = AgentState.final_answer (state w) ->
            n <> Trace -> n1 <> Router -> n1 <> Trace ->
            item_in_progress a st0 n1 w1).
  { intros w1 n1 H1 H2 H3 H4 H5 Hn Hn1 Hn1'. unfold item_in_progress.
    rewrite H1, H2, H3, H5.
    split; [assumption|]. split; [assumption|]. split; [assumption|].
    split; [|split; [intros _; now apply Hans | intros H; now contradiction Hn1']].
    intros _. rewrite H4. destruct n; cbn [node_eqb];
      first [now rewrite Hq | apply Hroute; discriminate]. }
  destruct n; cbn [run_node] in Hstep.
  - unfold node_router in Hstep. simp_run_in Hstep. inversion Hstep; subst.
    apply Hkeep; try reflexivity; discriminate.
  - unfold node_retriever in Hstep.
    destruct (retrieve a _ _); [|discriminate].
    simp_run_in Hstep. inversion Hstep; subst.
    apply Hkeep; try reflexivity; discriminate.
  - unfold node_planner, planner_branch in Hstep. simp_run_in Hstep.
    match type of Hstep with
    | context [String.eqb ?x "rag"] => destruct (String.eqb x "rag")
    end; inversion Hstep; subst; apply Hkeep; try reflexivity; discriminate.
  - unfold node_schema in Hstep. simp_run_in Hstep. inversion Hstep; subst.
    apply Hkeep; try reflexivity; discriminate.
  - unfold node_nl2sql in Hstep.
    destruct (generate_sql a _ _); [|discriminate].
    simp_run_in Hstep. inversion Hstep; subst.
    apply Hkeep; try reflexivity; discriminate.
  - unfold node_executor in Hstep.
    destruct (execute_sql a _ _ _) as [[es sr] lg].
    simp_run_in Hstep. inversion Hstep; subst.
    apply Hkeep; try reflexivity; discriminate.
  - unfold node_validator, validator_branch in Hstep.
    destruct (truthy (AgentState.sql (state w)));
    destruct (success (AgentState.sql_res (state w)));
    destruct (rows (AgentState.sql_res (state w)));
    destruct (AgentState.repairs (state w) <? AgentState.max_repairs (state w));
    cbn [negb] in Hstep; simp_run_in Hstep; inversion Hstep; subst;
      apply Hkeep; try reflexivity; discriminate.
  - unfold node_repair in Hstep.
    destruct (generate_sql a _ _); [|discriminate].
    simp_run_in Hstep. inversion Hstep; subst.
    apply Hkeep; try reflexivity; discriminate.
  - unfold node_synthesizer in Hstep.
    destruct (synthesize _ _ _ _ _ _ _ _ _ _) as [out|] eqn:Hsyn; [|discriminate].
    simp_run_in Hstep. inversion Hstep; subst. simp_run.
    destruct (synthesize_passes_through _ _ _ _ _ _ _ _ _ _ _ Hsyn)
      as (Hoid & Hosql & Hocit).
    split; [assumption|]. split; [assumption|]. split; [assumption|].
    split; [intros _; apply Hroute; discriminate|].
    split; [intros H; now contradiction H|].
    intros _. split; [discriminate|]. now rewrite Hocit, Hosql.
  - unfold node_trace in Hstep. simp_run_in Hstep. discriminate.
Qed.

Lemma reaches_item_in_progress (st0 : AgentState.t) (n : node) (w : World) :
  reaches float_of_text int_of_text a st0 n w ->
  item_in_progress a st0 n w.
Proof.
  induction 1 as [|n n' w w' _ IH Hstep].
  - unfold item_in_progress. cbn [state trace_file].
    repeat split; try reflexivity.
    + intros H. now contradiction H.
    + discriminate.
    + discriminate.
  - exact (step_keeps_item_in_progress st0 n n' w w' IH Hstep).
Qed.

End Traced.

(** X9.  A run that ends without an exception has written exactly one
    trace line, and that line and the output line of the item agree:
    both carry the item id the run was started with and the same query
    text; the trace line carries the resolved route, the final
    constraints and the final repair count; the output has an answer and
    the citations of its query text and the retrieved chunks.  A run
    that ends with an exception has written no trace line and no
    answer. *)
Theorem completed_run_is_traced_once
  (float_of_text : string -> option pyfloat) (int_of_text : string -> option Z)
  (a : Agent) (fuel : nat) (st0 : AgentState.t) (w : World)
  (visited : list node) (r : option exn) :
  invoke float_of_text int_of_text a fuel st0 = Some (w, visited, r) ->
  (r = None ->
   exists e,
     trace_file w = [e]
     /\ TraceEntry.item_id e = AgentState.item_id st0
     /\ TraceEntry.question e = AgentState.question st0
     /\ TraceEntry.route e = route a (AgentState.question st0)
     /\ TraceEntry.constraints e = AgentState.constraints (state w)
     /\ TraceEntry.repairs e = AgentState.repairs (state w)
     /\ TraceEntry.sql e = Contract.sql (project_contract (state w))
     /\ Contract.id (project_contract (state w)) = AgentState.item_id st0
     /\ Contract.final_answer (project_contract (state w)) <> None
     /\ Contract.citations (project_contract (state w))
        = _build_citations (Contract.sql (project_contract (state w)))
            (AgentState.retrieved_chunks (state w)))
  /\ (r <> None ->
      trace_file w = []
      /\ AgentState.final_answer (state w) = AgentState.final_answer st0).
Proof.
  intros Hrun. unfold invoke in Hrun.
  destruct (run_ends float_of_text int_of_text a st0 fuel Router
              (MkWorld st0 [] []) w visited r
              (reaches_start float_of_text int_of_text a st0) Hrun)
    as (nl & wl & Hreach & Hend).
  pose proof (reaches_item_in_progress float_of_text int_of_text a st0 nl wl Hreach)
    as (Hid & Hq & Htr & Hroute & Hans & Hout).
  split.
  - intros ->. destruct Hend as [[_ Hstep]|(e & He & _)]; [|discriminate].
    destruct (only_trace_ends float_of_text int_of_text a nl wl w Hstep)
      as (-> & Hst & _ & e & Hfile & Heid & Heq & Her & Hec & Hes & _ & Herep & _).
    destruct (Hout eq_refl) as (Hoans & Hocit).
    exists e. rewrite Hfile, Htr, Hst.
    split; [reflexivity|]. split; [now rewrite Heid|]. split; [now rewrite Heq|].
    split; [rewrite Her; apply Hroute; discriminate|].
    split; [exact Hec|]. split; [exact Herep|]. split; [exact Hes|].
    unfold project_contract.
    cbn [Contract.id Contract.final_answer Contract.citations Contract.sql].
    cbn [AgentState.id]. split; [exact Hid|].
    split; [exact Hoans | exact Hocit].
  - intros Hr. destruct Hend as [[-> _]|(e & _ & Hstep & ->)];
      [now contradiction Hr|].
    split; [exact Htr|]. apply Hans. intros ->.
    exact (trace_never_raises float_of_text int_of_text a wl e Hstep).
Qed.

Lemma completed_run_is_traced_once_witness :
  exists w visited,
    run_item (agent_over revenue_store 0) "q1" top_products_question
      "list[{product:str, revenue:float}]" = Some (w, visited, None)
    /\ List.length (trace_file w) = 1%nat.
Proof.
  unfold run_item.
  destruct (invoke no_float_text no_int_text (agent_over revenue_store 0) 40
              (AgentState.new "q1" top_products_question
                 "list[{product:str, revenue:float}]"))
    as [[[w visited] r]|] eqn:Hrun; [|vm_compute in Hrun; discriminate].
  assert (Hr : r = None) by (vm_compute in Hrun; congruence).
  destruct (completed_run_is_traced_once no_float_text no_int_text
              (agent_over revenue_store 0) 40
              (AgentState.new "q1" top_products_question
                 "list[{product:str, revenue:float}]") w visited r Hrun)
    as [Hdone _].
  destruct (Hdone Hr) as (e & Hfile & _).
  exists w, visited. rewrite Hr, Hfile. split; reflexivity.
Defined.

(* ------------------------------------------------------------------ *)
(** ** The repair node in the runs of the graph *)

Lemma path_has_no_repair (visited rest : list node) :
  (visited ++ rest)%list = sql_path \/ (visited ++ rest)%list = rag_path ->
  ~ In Repair visited /\ NoDup visited.
Proof.
  intros Hpath.
  assert (Hall : ~ In Repair (visited ++ rest) /\ NoDup (visited ++ rest)).
  { destruct Hpath as [-> | ->]; unfold sql_path, rag_path; split.
    - cbn [In]. intros H.
      repeat (destruct H as [H|H]; [discriminate|]). exact H.
    - repeat constructor; cbn [In]; intros H;
        repeat (destruct H as [H|H]; [discriminate|]); exact H.
    - cbn [In]. intros H.
      repeat (destruct H as [H|H]; [discriminate|]). exact H.
    - repeat constructor; cbn [In]; intros H;
        repeat (destruct H as [H|H]; [discriminate|]); exact H. }
  destruct Hall as [Hno Hnd]. split.
  - intros H. apply Hno, in_or_app. now left.
  - now apply NoDup_app_remove_r in Hnd.
Qed.

(** X10.  No run enters the repair node.  The validator's update names
    the next step under a key that is no field of the state, so the
    edge behind the validator finds nothing to read and leads to the
    answer synthesis, also when the validator has recorded that a
    repair is needed.  Every run from the router ends within nine
    steps, visits no node twice, ends with the repair counter it began
    with, and, once the planner has run, carries the planner's
    constraints to the final state and to the trace line. *)
Theorem repair_request_is_not_followed
  (float_of_text : string -> option pyfloat) (int_of_text : string -> option Z)
  (a : Agent) (st0 : AgentState.t) (fuel : nat) :
  (9 <= fuel)%nat ->
  (exists w visited r,
     invoke float_of_text int_of_text a fuel st0 = Some (w, visited, r)
     /\ ~ In Repair visited
     /\ NoDup visited
     /\ AgentState.repairs (state w) = AgentState.repairs st0
     /\ Forall (fun e => TraceEntry.repairs e = AgentState.repairs st0
                         /\ TraceEntry.constraints e
                            = AgentState.constraints (state w)
                         /\ TraceEntry.needs_repair e
                            = AgentState.needs_repair (state w))
          (trace_file w)
     /\ (In Planner visited ->
         exists cs,
           search (retriever a) (AgentState.question st0) 10 = Ok cs
           /\ AgentState.constraints (state w)
              = plan (AgentState.question st0) cs))
  /\ (forall w w' n',
        step float_of_text int_of_text a Validator w = Ok (n', w') ->
        n' = Some Synthesizer
        /\ AgentState.needs_repair (state w')
           = ((AgentState.repairs (state w) <? AgentState.max_repairs (state w))
              && repair_wanted (AgentState.sql (state w))
                   (AgentState.sql_res (state w)))%bool).
Proof.
  intros Hfuel. split.
  - destruct (run_is_a_straight_line float_of_text int_of_text a st0 fuel Hfuel)
      as (w & visited & r & Hrun & (rest & Hpath) & _ & Hrep & _ & Htr & Hplan).
    destruct (path_has_no_repair visited rest Hpath) as [Hno Hnd].
    exists w, visited, r. split; [exact Hrun|].
    split; [exact Hno|]. split; [exact Hnd|]. split; [exact Hrep|].
    split; [exact Htr | exact Hplan].
  - intros w w' n' Hstep. unfold step in Hstep. cbn [run_node] in Hstep.
    destruct (node_validator_returns w) as (err & outcome & Hv).
    rewrite Hv in Hstep. simp_run_in Hstep.
    change (String.eqb "synthesize" "repair") with false in Hstep.
    change (String.eqb "synthesize" "synthesize") with true in Hstep.
    cbv iota in Hstep. injection Hstep as <- <-. simp_run.
    split; reflexivity.
Qed.

Lemma repair_request_is_not_followed_witness :
  exists w visited,
    run_item (agent_over failing_store 0) "q1" top_products_question
      "list[{product:str, revenue:float}]" = Some (w, visited, None)
    /\ ~ In Repair visited
    /\ map TraceEntry.needs_repair (trace_file w) = [true]
    /\ map TraceEntry.repairs (trace_file w) = [0].
Proof.
  destruct (repair_request_is_not_followed no_float_text no_int_text
              (agent_over failing_store 0)
              (AgentState.new "q1" top_products_question
                 "list[{product:str, revenue:float}]") 40)
    as ((w & visited & r & Hrun & Hno & _) & _); [lia|].
  unfold run_item. rewrite Hrun.
  assert (Hc : option_map
                 (fun p => (snd p,
                            map TraceEntry.needs_repair (trace_file (fst (fst p))),
                            map TraceEntry.repairs (trace_file (fst (fst p)))))
                 (invoke no_float_text no_int_text (agent_over failing_store 0) 40
                    (AgentState.new "q1" top_products_question
                       "list[{product:str, revenue:float}]"))
               = Some (None, [true], [0]))
    by (vm_compute; reflexivity).
  rewrite Hrun in Hc. cbn [option_map fst snd] in Hc.
  injection Hc as -> Hneed Hrep.
  exists w, visited. repeat split; assumption.
Defined.

(* ------------------------------------------------------------------ *)
(** ** The table part of a citation list *)

(** X13.  A citation list is a list of texts captured from the query
    followed by the non-empty chunk ids of the retrieved chunks, in the
    order of retrieval, a repeated chunk id repeated.  The first part
    is a sorted set: it holds every text captured behind a FROM or JOIN
    keyword of the query exactly once, in strictly ascending order,
    however often and in whatever order the query names it. *)
Theorem table_citations_are_a_sorted_set (sql : string) (cs : list Chunk) :
  exists tables,
    _build_citations sql cs = (tables ++ cited_chunk_ids cs)%list
    /\ tables = extract_tables_from_sql sql
    /\ Sorted str_lt tables
    /\ NoDup tables
    /\ (forall t, In t tables <-> In t (table_candidates sql)).
Proof.
  exists (extract_tables_from_sql sql).
  split; [apply citations_split|]. split; [reflexivity|].
  assert (Hset : NoDup (extract_tables_from_sql sql)
                 /\ forall t, In t (extract_tables_from_sql sql)
                              <-> In t (table_candidates sql)).
  { unfold extract_tables_from_sql.
    destruct (truthy sql) eqn:Hsql; simpl.
    - destruct (fold_set_add (table_candidates sql) []) as [Hnd Hin].
      split.
      + eapply Permutation_NoDup.
        * apply Permutation_sym, sorted_perm.
        * apply Hnd. constructor.
      + intros t. split; intros H.
        * apply (Permutation_in _ (sorted_perm _)) in H.
          apply Hin in H. destruct H as [H|[]]. exact H.
        * apply (Permutation_in _
                   (Permutation_sym (sorted_perm _))).
          apply Hin. now left.
    - destruct sql; [|discriminate]. split; [constructor|].
      intros t. rewrite table_candidates_empty. reflexivity. }
  destruct Hset as [Hnd Hin].
  split; [|split; [exact Hnd | exact Hin]].
  apply ordered_nodup_strict; [|exact Hnd].
  unfold extract_tables_from_sql.
  destruct (truthy sql); simpl; [apply sorted_ordered | constructor].
Qed.

(* ------------------------------------------------------------------ *)
(** ** Routing when the predictor is down *)

Lemma heuristic_three_valued (question : string) :
  _heuristic_predict question = "rag"
  \/ _heuristic_predict question = "sql"
  \/ _heuristic_predict question = "hybrid".
Proof.
  unfold _heuristic_predict.
  destruct (any_in _ _); [now left|].
  destruct (_ && _)%bool; auto.
Qed.

(** X11.  [RouterModule.forward] never raises: when the predictor
    raises it answers with its own keyword heuristic.  The route of an
    agent built on it is then that heuristic label, except that the
    label rag gives way to the fallback of [HybridAgent]: the route is
    rag only when both heuristics say rag. *)
Theorem route_when_the_predictor_is_down
  (a : Agent) (predictor : string -> result (option string)) (question : string) :
  router_module a = forward predictor ->
  raises (predictor question) ->
  forward predictor question = Ok (Some (_heuristic_predict question))
  /\ route a question
     = (if String.eqb (_heuristic_predict question) "rag"
        then _fallback_route question
        else _heuristic_predict question)
  /\ (route a question = "rag" <->
      _heuristic_predict question = "rag" /\ _fallback_route question = "rag")
  /\ (forall q, returns (forward predictor q)).
Proof.
  intros Hrouter [e He].
  assert (Hfw : forward predictor question = Ok (Some (_heuristic_predict question))).
  { unfold forward. now rewrite He. }
  split; [exact Hfw|].
  assert (Hroute : route a question
                   = (if String.eqb (_heuristic_predict question) "rag"
                      then _fallback_route question
                      else _heuristic_predict question)).
  { unfold route. rewrite Hrouter, Hfw.
    destruct (heuristic_three_valued question) as [Hh|[Hh|Hh]]; rewrite Hh;
      destruct (fallback_two_valued question) as [Hf|Hf]; rewrite Hf;
      reflexivity. }
  split; [exact Hroute|].
  split.
  - rewrite Hroute.
    destruct (heuristic_three_valued question) as [Hh|[Hh|Hh]]; rewrite Hh;
      destruct (fallback_two_valued question) as [Hf|Hf]; rewrite Hf;
      cbn; split; try intros [H1 H2]; try discriminate; auto.
  - intros q. unfold forward. destruct (predictor q); now eexists.
Qed.

Lemma route_when_the_predictor_is_down_witness :
  route (MkAgent (forward (fun _ => Raise OtherError)) no_index failing_store 2
           (MkArtifacts [] []) 0) "Hello there"
  = "hybrid".
Proof.
  destruct (route_when_the_predictor_is_down
              (MkAgent (forward (fun _ => Raise OtherError)) no_index
                 failing_store 2 (MkArtifacts [] []) 0)
              (fun _ => Raise OtherError) "Hello there" eq_refl)
    as (_ & Hroute & _).
  - exists OtherError. reflexivity.
  - exact Hroute.
Defined.

(* ------------------------------------------------------------------ *)
(** ** What the planner can extract *)

Lemma first_some_found {A B : Type} (f : A -> option B) (l : list A) (y : B) :
  first_some f l = Some y -> exists x, In x l /\ f x = Some y.
Proof.
  induction l as [|x l IH]; cbn [first_some]; [discriminate|].
  destruct (f x) as [z|] eqn:Hx.
  - intros H. inversion H; subst. exists x. split; [now left | exact Hx].
  - intros H. destruct (IH H) as (x' & Hin & Hf). exists x'. split; [now right | exact Hf].
Qed.

Lemma normalize_known_category (cat : string) :
  In cat KNOWN_CATEGORIES -> normalize_category (Some cat) = Some cat.
Proof.
  cbn [In KNOWN_CATEGORIES].
  intros [<-|[<-|[<-|[<-|[<-|[<-|[<-|[<-|[]]]]]]]]]; reflexivity.
Qed.

Lemma known_category_truthy (cat : string) :
  In cat KNOWN_CATEGORIES -> truthy cat = true.
Proof.
  cbn [In KNOWN_CATEGORIES].
  intros [<-|[<-|[<-|[<-|[<-|[<-|[<-|[<-|[]]]]]]]]]; reflexivity.
Qed.

Lemma extract_category_known (question : string) (cs : list Chunk) (cat : string) :
  extract_category question cs = Some cat ->
  In cat KNOWN_CATEGORIES
  /\ (contains (lower cat) (lower question) = true
      \/ exists chunk, In chunk cs
           /\ contains (lower cat) (lower (get_content chunk)) = true).
Proof.
  unfold extract_category.
  destruct (find (fun c => contains (lower c) (lower question)) KNOWN_CATEGORIES)
    as [c|] eqn:Hq.
  - intros H. inversion H; subst. apply find_some in Hq. destruct Hq as [Hin Hc].
    split; [exact Hin | now left].
  - intros H. apply first_some_found in H. destruct H as (chunk & Hin & Hf).
    apply find_some in Hf. destruct Hf as [Hk Hc].
    split; [exact Hk|]. right. exists chunk. auto.
Qed.

Lemma first_some_first {A B : Type} (f : A -> option B)
  (pre : list A) (x : A) (post : list A) (y : B) :
  (forall z, In z pre -> f z = None) ->
  f x = Some y ->
  first_some f (pre ++ x :: post) = Some y.
Proof.
  intros Hpre Hx. induction pre as [|z pre IH]; cbn [app first_some].
  - now rewrite Hx.
  - rewrite (Hpre z (or_introl eq_refl)). apply IH.
    intros z' Hin. apply Hpre. now right.
Qed.

Lemma first_some_nowhere {A B : Type} (f : A -> option B) (l : list A) :
  (forall z, In z l -> f z = None) -> first_some f l = None.
Proof.
  intros H. induction l as [|z l IH]; cbn [first_some]; [reflexivity|].
  rewrite (H z (or_introl eq_refl)). apply IH.
  intros z' Hin. apply H. now right.
Qed.

(** X12.  The planner's output stays within fixed domains and follows
    a fixed order of search.  A category, when present, is one of the
    eight known categories, it occurs (case-insensitively) in the
    question or in a retrieved chunk, and normalising it changes
    nothing; a category found in the question wins over the chunks,
    and otherwise the first chunk that names one decides.  A KPI, when
    present, is aov, gross_margin or revenue.  A date range is the one
    of the question when it has one, otherwise the one of the first
    retrieved chunk that has one, and there is none when neither the
    question nor any chunk has one. *)
Theorem plan_output_domain (question : string) (cs : list Chunk) :
  let c := plan question cs in
  let named (text : string) :=
    find (fun k => contains (lower k) (lower text)) KNOWN_CATEGORIES in
  category c = extract_category question cs
  /\ (forall cat, category c = Some cat ->
        In cat KNOWN_CATEGORIES
        /\ (contains (lower cat) (lower question) = true
            \/ exists chunk, In chunk cs
                 /\ contains (lower cat) (lower (get_content chunk)) = true))
  /\ (forall cat, named question = Some cat -> category c = Some cat)
  /\ (forall pre chunk post cat,
        cs = (pre ++ chunk :: post)%list ->
        named question = None ->
        (forall c0, In c0 pre -> named (get_content c0) = None) ->
        named (get_content chunk) = Some cat ->
        category c = Some cat)
  /\ (forall k, kpi c = Some k -> In k ["aov"; "gross_margin"; "revenue"])
  /\ (forall dr, date_range c = Some dr ->
        exists text, In text (question :: map get_content cs)
          /\ extract_first_date_range text = Some (dr_start dr, dr_end dr))
  /\ (forall s e, extract_first_date_range question = Some (s, e) ->
        date_range c = Some (MkDateRange s e))
  /\ (forall pre chunk post s e,
        cs = (pre ++ chunk :: post)%list ->
        extract_first_date_range question = None ->
        (forall c0, In c0 pre ->
           extract_first_date_range (get_content c0) = None) ->
        extract_first_date_range (get_content chunk) = Some (s, e) ->
        date_range c = Some (MkDateRange s e))
  /\ (extract_first_date_range question = None ->
      (forall c0, In c0 cs -> extract_first_date_range (get_content c0) = None) ->
      date_range c = None).
Proof.
  intros c named. subst c named. cbv beta.
  assert (Hcat : category (plan question cs) = extract_category question cs).
  { unfold plan. cbn [category].
    destruct (extract_category question cs) as [cat|] eqn:He; [|reflexivity].
    destruct (extract_category_known question cs cat He) as [Hin _].
    rewrite (normalize_known_category cat Hin), (known_category_truthy cat Hin).
    reflexivity. }
  split; [exact Hcat|].
  split.
  { intros cat H. rewrite Hcat in H. now apply extract_category_known. }
  split.
  { intros cat H. rewrite Hcat. unfold extract_category. now rewrite H. }
  split.
  { intros pre chunk post cat -> Hq Hpre Hchunk. rewrite Hcat.
    unfold extract_category. rewrite Hq.
    now apply (first_some_first
                 (fun ch => find (fun k => contains (lower k)
                                             (lower (get_content ch)))
                              KNOWN_CATEGORIES)). }
  split.
  { intros k. unfold plan, plan_kpi. cbn [kpi].
    destruct (_ || _)%bool; [intros H; inversion H; cbn; auto|].
    destruct (_ || _)%bool; [intros H; inversion H; cbn; auto|].
    destruct (contains "revenue" _); [intros H; inversion H; cbn; auto|].
    discriminate. }
  split.
  { intros dr. unfold plan. cbn [date_range].
    destruct (extract_date_range question cs) as [[s e]|] eqn:Hd; [|discriminate].
    intros H. inversion H; subst. cbn [dr_start dr_end].
    unfold extract_date_range in Hd. apply first_some_found in Hd.
    destruct Hd as (text & Hin & Hf). exists text. auto. }
  split.
  { intros s e H. unfold plan, extract_date_range. cbn [date_range first_some].
    now rewrite H. }
  split.
  { intros pre chunk post s e -> Hq Hpre Hchunk.
    unfold plan, extract_date_range. cbn [date_range first_some].
    rewrite Hq, map_app. cbn [map].
    rewrite (first_some_first extract_first_date_range (map get_content pre)
               (get_content chunk) (map get_content post) (s, e)); auto.
    intros z Hz. apply in_map_iff in Hz. destruct Hz as (c0 & <- & Hin).
    now apply Hpre. }
  intros Hq Hall. unfold plan, extract_date_range. cbn [date_range first_some].
  rewrite Hq, first_some_nowhere; [reflexivity|].
  intros z Hz. apply in_map_iff in Hz. destruct Hz as (c0 & <- & Hin).
  now apply Hall.
Qed.
